(** * The preload and listing pipeline of the cloud API gateway

    A shallow embedding of [lib/packages.js] and [lib/datasets.js]: the
    middleware that resolves the package and the image in scope of a request
    ([loadPackages], [load], [getImage], [curImg65], [curImg70]), the two list
    handlers ([list]) and the two response translators ([translate],
    [errorObjFromImgapiImage]).

    JavaScript values are a small sum type, objects are finite maps from
    property names to values, exceptions are an error monad, and every
    callback-style backend call is a function of the request's client record
    that answers with an error or a value. *)

From Stdlib Require Import String Ascii ZArith List Bool Lia.
From stdpp Require Import base option gmap strings list pretty.

Set Warnings "-register-all".
Local Open Scope string_scope.
Local Open Scope list_scope.

(** ** JavaScript values *)

Module Js.

(** Numbers are the integers: no claim here depends on fractions or NaN. *)
Inductive jsval : Type :=
| JUndefined
| JNull
| JBool (b : bool)
| JNum (n : Z)
| JStr (s : string)
| JObj (fields : gmap string jsval).

(** ToBoolean. *)
Definition truthy (v : jsval) : bool :=
  match v with
  | JUndefined | JNull => false
  | JBool b => b
  | JNum n => negb (n =? 0)%Z
  | JStr s => negb (String.eqb s "")
  | JObj _ => true
  end.

(** [a || b]: the left operand when it is truthy, the right one otherwise. *)
Definition js_or (a b : jsval) : jsval := if truthy a then a else b.

(** [a && b]: the left operand when it is falsy, the right one otherwise. *)
Definition js_and (a b : jsval) : jsval := if truthy a then b else a.

(** [a === b] on primitives. Two object operands are equal only when they are
    the same allocation, which a value model cannot see; the comparisons of
    the source are between identifiers, names and flags. *)
Definition strict_eq (a b : jsval) : bool :=
  match a, b with
  | JUndefined, JUndefined => true
  | JNull, JNull => true
  | JBool x, JBool y => Bool.eqb x y
  | JNum x, JNum y => (x =? y)%Z
  | JStr x, JStr y => String.eqb x y
  | _, _ => false
  end.

(** ToString, as a regular expression's [test] and string concatenation
    coerce their operand. *)
Definition to_string (v : jsval) : string :=
  match v with
  | JUndefined => "undefined"
  | JNull => "null"
  | JBool true => "true"
  | JBool false => "false"
  | JNum n => pretty n
  | JStr s => s
  | JObj _ => "[object Object]"
  end.

(** [o.k] on an object of own properties: [undefined] when [k] is missing. *)
Definition get (o : gmap string jsval) (k : string) : jsval :=
  default JUndefined (o !! k).

(** [o.hasOwnProperty(k)]. *)
Definition hasOwnProperty (o : gmap string jsval) (k : string) : bool :=
  match o !! k with Some _ => true | None => false end.

(** [v.k] where [v] is known to be truthy: a property of an object, and
    [undefined] on a primitive (which has no such own property). *)
Definition prop (v : jsval) (k : string) : jsval :=
  match v with
  | JObj o => get o k
  | _ => JUndefined
  end.

(** The own properties of a value: those of an object, none of a
    primitive. *)
Definition own (v : jsval) : gmap string jsval :=
  match v with
  | JObj o => o
  | _ => ∅
  end.

(** [typeof v !== 'undefined']. *)
Definition defined (v : jsval) : bool :=
  match v with JUndefined => false | _ => true end.

(** *** Exceptions *)

Inductive error : Type :=
| TypeError
| AssertionError
| ResourceNotFoundError (message : string)
| ClientError (code : string).

(** A computation that returns or throws. *)
Inductive result (A : Type) : Type :=
| Ok (a : A)
| Throw (e : error).
Arguments Ok {A} a.
Arguments Throw {A} e.

#[export] Instance result_ret : MRet result := fun _ a => Ok a.
#[export] Instance result_bind : MBind result := fun _ _ f m =>
  match m with Ok a => f a | Throw e => Throw e end.
#[export] Instance result_fmap : FMap result := fun _ _ f m =>
  match m with Ok a => Ok (f a) | Throw e => Throw e end.

(** [v.k] with no guard: reading a property of [undefined] or [null]
    throws. *)
Definition prop_of (v : jsval) (k : string) : result jsval :=
  match v with
  | JUndefined | JNull => Throw TypeError
  | _ => Ok (prop v k)
  end.

(** [l.map(f)] for a callback that may throw: the first exception ends the
    loop. *)
Fixpoint map_throw {A B : Type} (f : A -> result B) (l : list A)
  : result (list B) :=
  match l with
  | [] => Ok []
  | a :: t =>
      b ← f a;
      bs ← map_throw f t;
      Ok (b :: bs)
  end.

(** [l.reduce(f)] with no initial value: the first element starts the fold,
    a one-element array is returned without a call, an empty one throws. *)
Fixpoint reduce_from {A : Type} (f : A -> A -> result A) (acc : A) (l : list A)
  : result A :=
  match l with
  | [] => Ok acc
  | b :: t => acc' ← f acc b; reduce_from f acc' t
  end.

Definition reduce {A : Type} (f : A -> A -> result A) (l : list A) : result A :=
  match l with
  | [] => Throw TypeError
  | a :: t => reduce_from f a t
  end.

(** *** Strings and the regular expressions of the source *)

(** [/sub/.test(s)] for a literal [sub]. *)
Fixpoint contains (sub s : string) : bool :=
  String.prefix sub s ||
  match s with
  | EmptyString => false
  | String _ t => contains sub t
  end.

(** [/suffix$/.test(s)] for a literal [suffix]. *)
Fixpoint ends_with (suffix s : string) : bool :=
  String.eqb suffix s ||
  match s with
  | EmptyString => false
  | String _ t => ends_with suffix t
  end.

Definition is_lower_hex (c : ascii) : bool :=
  let n := nat_of_ascii c in
  ((48 <=? n) && (n <=? 57) || (97 <=? n) && (n <=? 102))%nat.

(** [[a-f0-9]{n}] at the head of [s]: what follows it. *)
Fixpoint hex_run (n : nat) (s : string) : option string :=
  match n with
  | O => Some s
  | S m =>
      match s with
      | String c t => if is_lower_hex c then hex_run m t else None
      | EmptyString => None
      end
  end.

Definition dash (s : option string) : option string :=
  match s with
  | Some (String "-"%char t) => Some t
  | _ => None
  end.

(** [/^[a-f0-9]{8}-[a-f0-9]{4}-[a-f0-9]{4}-[a-f0-9]{4}-[a-f0-9]{12}$/]. *)
Definition UUID_RE (s : string) : bool :=
  match
    r1 ← dash (hex_run 8 s);
    r2 ← dash (hex_run 4 r1);
    r3 ← dash (hex_run 4 r2);
    r4 ← dash (hex_run 4 r3);
    hex_run 12 r4
  with
  | Some EmptyString => true
  | _ => false
  end.

(** [re.test(v)]: the operand is coerced to a string first. *)
Definition test (re : string -> bool) (v : jsval) : bool := re (to_string v).

(** The run of characters other than [/] at the head of [s], and the rest. *)
Fixpoint segment (s : string) : string * string :=
  match s with
  | EmptyString => (EmptyString, EmptyString)
  | String c t =>
      if Ascii.eqb c "/"%char then (EmptyString, s)
      else let '(seg, rest) := segment t in (String c seg, rest)
  end.

(** [/^\/[^\/]+\/datasets/.test(s)]. *)
Definition deprecated_endpoint_re (s : string) : bool :=
  match s with
  | String "/"%char t =>
      let '(seg, rest) := segment t in
      negb (String.eqb seg "") && String.prefix "/datasets" rest
  | _ => false
  end.

Definition lower_ascii (c : ascii) : ascii :=
  let n := nat_of_ascii c in
  if ((65 <=? n) && (n <=? 90))%nat then ascii_of_nat (n + 32) else c.

Definition upper_ascii (c : ascii) : ascii :=
  let n := nat_of_ascii c in
  if ((97 <=? n) && (n <=? 122))%nat then ascii_of_nat (n - 32) else c.

Fixpoint map_string (f : ascii -> ascii) (s : string) : string :=
  match s with
  | EmptyString => EmptyString
  | String c t => String (f c) (map_string f t)
  end.

(** [s.toLowerCase()] and [s.toUpperCase()] on the ASCII letters of a method
    name. *)
Definition toLowerCase : string -> string := map_string lower_ascii.
Definition toUpperCase : string -> string := map_string upper_ascii.

(** The [pathname] of a parsed request target: what stands before the query
    and the fragment. *)
Fixpoint pathname (s : string) : string :=
  match s with
  | EmptyString => EmptyString
  | String c t =>
      if Ascii.eqb c "?"%char || Ascii.eqb c "#"%char then EmptyString
      else String c (pathname t)
  end.

End Js.
Export Js.

Abbreviation obj := (gmap string jsval).

(** ** The collaborators of a request *)

(** What a backend client hands to its callback: an error, or a value. *)
Inductive reply (A : Type) : Type :=
| Failed (err : error)
| Replied (a : A).
Arguments Failed {A} err.
Arguments Replied {A} a.

(** [req.sdc]: the package catalog (papi) and the image catalog (imgapi),
    each call a function of its arguments. *)
Record clients : Type := {
  papi_get : jsval -> obj -> reply obj;
  papi_list : obj -> reply (list obj);
  imgapi_getImage : jsval -> reply obj;
  imgapi_listImages : obj -> reply (list obj)
}.

(** [req.account]. *)
Record account_t : Type := {
  uuid : string;
  login : string
}.

(** The request as the middleware sees it. [pkg] and [dataset] hold [false]
    or the selected entity; [packages] and [datasets] are [undefined] ([None])
    until a candidate list is loaded. *)
Record request : Type := {
  url : string;
  method : string;
  getVersion : string;
  params : obj;
  account : account_t;
  sdc : clients;
  max_packages_lifetime : Z;
  bleedingEdgeFeatures : jsval;
  bleedingEdgeLoginWhitelist : jsval;
  pkg : jsval;
  packages : option (list obj);
  dataset : jsval;
  datasets : option (list obj)
}.

Definition set_pkg (v : jsval) (r : request) : request :=
  {| url := url r; method := method r; getVersion := getVersion r;
     params := params r; account := account r; sdc := sdc r;
     max_packages_lifetime := max_packages_lifetime r;
     bleedingEdgeFeatures := bleedingEdgeFeatures r;
     bleedingEdgeLoginWhitelist := bleedingEdgeLoginWhitelist r;
     pkg := v; packages := packages r;
     dataset := dataset r; datasets := datasets r |}.

Definition set_packages (l : list obj) (r : request) : request :=
  {| url := url r; method := method r; getVersion := getVersion r;
     params := params r; account := account r; sdc := sdc r;
     max_packages_lifetime := max_packages_lifetime r;
     bleedingEdgeFeatures := bleedingEdgeFeatures r;
     bleedingEdgeLoginWhitelist := bleedingEdgeLoginWhitelist r;
     pkg := pkg r; packages := Some l;
     dataset := dataset r; datasets := datasets r |}.

Definition set_dataset (v : jsval) (r : request) : request :=
  {| url := url r; method := method r; getVersion := getVersion r;
     params := params r; account := account r; sdc := sdc r;
     max_packages_lifetime := max_packages_lifetime r;
     bleedingEdgeFeatures := bleedingEdgeFeatures r;
     bleedingEdgeLoginWhitelist := bleedingEdgeLoginWhitelist r;
     pkg := pkg r; packages := packages r;
     dataset := v; datasets := datasets r |}.

Definition set_datasets (l : list obj) (r : request) : request :=
  {| url := url r; method := method r; getVersion := getVersion r;
     params := params r; account := account r; sdc := sdc r;
     max_packages_lifetime := max_packages_lifetime r;
     bleedingEdgeFeatures := bleedingEdgeFeatures r;
     bleedingEdgeLoginWhitelist := bleedingEdgeLoginWhitelist r;
     pkg := pkg r; packages := packages r;
     dataset := dataset r; datasets := Some l |}.

(** [req.params.k]. *)
Definition param (r : request) (k : string) : jsval := get (params r) k.

(** How a middleware hands over: [next()], [next(err)], or an exception that
    escapes it. *)
Inductive outcome : Type :=
| Next
| NextErr (err : error)
| Thrown (err : error).

(** ** The semver package

    The comparison of versions is the [semver] dependency's. [valid] parses
    a version string (and answers [null], here [None], for anything else),
    [gte] orders two parsed versions, [satisfies v r] tells whether version
    [v] lies in range [r]. *)
Class Semver : Type := {
  semver : Type;
  valid : string -> option semver;
  gte : semver -> semver -> bool;
  satisfies : string -> string -> bool
}.

(** What the claims use of the order: any two versions compare, and the
    comparison is transitive. *)
Class SemverOrder (S : Semver) : Prop := {
  gte_total : forall a b : semver, gte a b = true \/ gte b a = true;
  gte_trans : forall a b c : semver,
    gte a b = true -> gte b c = true -> gte a c = true
}.

(** [semver.valid(v)] on a property value: only a string can be a version. *)
Definition js_valid `{Semver} (v : jsval) : option semver :=
  match v with
  | JStr s => valid s
  | _ => None
  end.

(** [semver.gte(a, b)] on the answers of [valid]: it builds a version from
    each operand, which throws on [null]. *)
Definition semver_gte `{Semver} (a b : option semver) : result bool :=
  match a, b with
  | Some x, Some y => Ok (gte x y)
  | _, _ => Throw TypeError
  end.

(** The callback of both modules' [reduce]: keep [a] unless [b] is newer. *)
Definition newest `{Semver} (a b : obj) : result obj :=
  ge ← semver_gte (js_valid (get a "version")) (js_valid (get b "version"));
  Ok (if ge : bool then a else b).

(** ** The result cache

    [lib/cache.js] as [list] calls it: [get] answers its callback with an
    error and a cached value, [set] stores a value for a lifetime. *)
Class Cache : Type := {
  cache_state : Type;
  cache_get : request -> string -> bool -> cache_state ->
              (option error * option (list obj)) * cache_state;
  cache_set : request -> string -> Z -> list obj -> cache_state -> cache_state
}.

(** ** lib/packages.js *)

Module Packages.

Definition translate (req : request) (pkg : obj) : obj :=
  let p : obj :=
    {[ "name" := get pkg "name";
       "memory" := get pkg "max_physical_memory";
       "disk" := get pkg "quota";
       "swap" := get pkg "max_swap";
       "vcpus" := js_or (get pkg "vcpus") (JNum 0);
       "default" := js_or (get pkg "default") (JBool false) ]} in
  if negb (contains "6.5" (getVersion req)) then
    let p := <["id" := get pkg "uuid"]> p in
    let p := <["version" := get pkg "version"]> p in
    let p := if truthy (get pkg "description")
             then <["description" := get pkg "description"]> p else p in
    let p := if truthy (get pkg "group")
             then <["group" := get pkg "group"]> p else p in
    p
  else p.

(** The newest of a non-empty array, by [reduce]. *)
Definition select_newest `{Semver} (req : request) (pkgs : list obj)
  : request * outcome :=
  match reduce newest pkgs with
  | Ok p => (set_pkg (JObj p) req, Next)
  | Throw e => (req, Thrown e)
  end.

(** The filter of the by-name search. *)
Definition by_name_filter (req : request) : obj :=
  {[ "name" := param req "package";
     "owner_uuids" := JStr (uuid (account req));
     "active" := JBool true ]}.

(** The filter of the resize search. *)
Definition owned_active_filter (req : request) : obj :=
  {[ "owner_uuids" := JStr (uuid (account req));
     "active" := JBool true ]}.

(** [req.account] and [req.sdc.papi] are always there in this model, so the
    two assertions hold. *)
Definition loadPackages `{Semver} (req : request) : request * outcome :=
  if String.eqb (url req) "/--ping" then (req, Next) else
  let req := set_pkg (JBool false) req in
  if ends_with "/packages" (pathname (url req)) then (req, Next) else
  let ownerUuid := JStr (uuid (account req)) in
  let pkgName := param req "package" in
  if truthy pkgName then
    if test UUID_RE pkgName then
      match papi_get (sdc req) pkgName {[ "owner_uuids" := ownerUuid ]} with
      | Failed err => (req, NextErr err)
      | Replied pkg => (set_pkg (JObj pkg) req, Next)
      end
    else
      match papi_list (sdc req) (by_name_filter req) with
      | Failed err => (req, NextErr err)
      | Replied pkgs =>
          if (length pkgs =? 0)%nat then (req, Next)
          else select_newest req pkgs
      end
  else if ends_with "/machines" (pathname (url req)) &&
          negb (String.eqb (toLowerCase (method req)) "post") then
    match papi_list (sdc req) ∅ with
    | Failed err => (req, NextErr err)
    | Replied pkgs => (set_packages pkgs req, Next)
    end
  else if negb (String.eqb (toLowerCase (method req)) "post") ||
          negb (strict_eq (param req "action") (JStr "resize")) then
    (req, Next)
  else
    match papi_list (sdc req) (owned_active_filter req) with
    | Failed err => (req, NextErr err)
    | Replied pkgs =>
        let req := set_packages pkgs req in
        let pkg :=
          List.filter (fun p => strict_eq (get p "default") (JBool true)) pkgs in
        if negb (length pkg =? 0)%nat then select_newest req pkg
        else (req, Next)
    end.

(** The backend filter [list] builds from the recognized parameters, before
    [active] and [owner_uuids] are added. *)
Definition narrowing : list (string * string) :=
  [ ("name", "name"); ("memory", "max_physical_memory"); ("disk", "quota");
    ("swap", "max_swap"); ("version", "version"); ("vcpus", "vcpus");
    ("group", "group") ].

Definition list_opts (req : request) : obj :=
  fold_left
    (fun (opts : obj) '(k, field) =>
       if truthy (param req k) then <[field := param req k]> opts else opts)
    narrowing ∅.

Definition canUseCache (req : request) : bool :=
  (size (list_opts req) =? 0)%nat.

Definition backend_opts (req : request) : obj :=
  <["owner_uuids" := JStr (uuid (account req))]>
    (<["active" := JBool true]> (list_opts req)).

Definition getCacheKey (req : request) : string :=
  "packages_" +:+ uuid (account req).

(** What a run of [list] did: the cache it leaves, the filters it sent to
    the package catalog, the body it sent to the client, and how it handed
    over. *)
Record listing `{Cache} : Type := {
  cache_after : cache_state;
  papi_queries : Datatypes.list obj;
  body : option (Datatypes.list obj);
  handed : outcome
}.

Definition sendResult `{Cache} (req : request) (queries : Datatypes.list obj)
    (err : option error) (pkgs : Datatypes.list obj) (saveToCache : bool)
    (c : cache_state) : listing :=
  match err with
  | Some e =>
      {| cache_after := c; papi_queries := queries; body := None;
         handed := NextErr e |}
  | None =>
      let c := if saveToCache
               then cache_set req (getCacheKey req) (max_packages_lifetime req) pkgs c
               else c in
      {| cache_after := c; papi_queries := queries;
         body := Some (map (translate req) pkgs); handed := Next |}
  end.

(** The callback [list] gives to [cache.get]. *)
Definition on_cache_reply `{Cache} (req : request)
    (r : option error * option (Datatypes.list obj)) (c : cache_state)
  : listing :=
  match r with
  | (None, Some cachedPkgs) => sendResult req [] None cachedPkgs false c
  | _ =>
      match papi_list (sdc req) (backend_opts req) with
      | Failed err2 =>
          sendResult req [backend_opts req] (Some err2) [] (canUseCache req) c
      | Replied pkgs =>
          sendResult req [backend_opts req] None pkgs (canUseCache req) c
      end
  end.

(** The role tags that [list] sets first, when account management is on, go
    to the response headers only and are left out. *)
Definition list `{Cache} (req : request) (c : cache_state) : listing :=
  let '(r, c) := cache_get req (getCacheKey req) (canUseCache req) c in
  on_cache_reply req r c.

(** [get] answers with the translation of the selected package, and with a
    not-found error when the preload selected none. The role tags are left
    out as in [list]. *)
Definition get (req : request) : option obj * outcome :=
  let _p := param req "package" in
  if negb (truthy (pkg req)) then
    (None, NextErr (ResourceNotFoundError (to_string _p +:+ " not found")))
  else (Some (translate req (own (pkg req))), Next).

End Packages.

(** ** lib/datasets.js *)

Module Datasets.

(** The three branches of the [switch] that copy the image's own error. *)
Definition copy_error (image e : obj) : result obj :=
  code ← prop_of (get image "error") "code";
  let e := <["code" := code]> e in
  message ← prop_of (get image "error") "message";
  Ok (<["message" := message]> e).

Definition errorObjFromImgapiImage (image : obj) : result obj :=
  let e : obj := ∅ in
  code ← prop_of (get image "error") "code";
  if strict_eq code (JStr "PrepareImageDidNotRun") then copy_error image e
  else if strict_eq code (JStr "VmHasNoOrigin") then copy_error image e
  else if strict_eq code (JStr "NotSupported") then copy_error image e
  else
    let e := <["code" := JStr "InternalError"]> e in
    Ok (<["message" := JStr ("an unexpected error occurred "
                             +:+ "(Contact support for assistance.)")]> e).

(** [fields.k = true] on an object whose keys are read back in insertion
    order. *)
Definition add_field (k : string) (fields : list string) : list string :=
  if decide (k ∈ fields) then fields else fields ++ [k].

(** The bleeding-edge test of [translate]: the feature is on and the login,
    or every login, is whitelisted. *)
Definition bleeding_edge (req : request) : jsval :=
  js_and
    (js_and
       (js_and (bleedingEdgeFeatures req)
               (prop (bleedingEdgeFeatures req) "img_mgmt"))
       (bleedingEdgeLoginWhitelist req))
    (js_or (prop (bleedingEdgeLoginWhitelist req) (login (account req)))
           (prop (bleedingEdgeLoginWhitelist req) "*")).

(** The names of the version-gated fields, in the order [Object.keys] gives
    them. *)
Definition fieldNames `{Semver} (req : request) : list string :=
  let v := getVersion req in
  let fields := ["tags"] in
  if negb (deprecated_endpoint_re (url req)) then
    let fields :=
      if satisfies "7.0.0" v
      then add_field "published_at" (add_field "homepage" fields)
      else fields in
    if satisfies "7.1.0" v || truthy (bleeding_edge req) then
      fold_left (fun fs k => add_field k fs)
        ["owner"; "homepage"; "published_at"; "public"; "state"; "eula";
         "acl"; "origin"; "error"] fields
    else fields
  else fields.

(** One turn of the loop over [fieldNames]. *)
Definition copy_field (d : obj) (o : obj) (field : string) : result obj :=
  if negb (hasOwnProperty d field) then Ok o
  else if String.eqb field "error" then
    e ← errorObjFromImgapiImage d;
    Ok (<["error" := JObj e]> o)
  else Ok (<[field := get d field]> o).

Fixpoint copy_fields (d : obj) (names : list string) (o : obj) : result obj :=
  match names with
  | [] => Ok o
  | field :: rest => o' ← copy_field d o field; copy_fields d rest o'
  end.

(** [obj.requirements] once the image has requirements. *)
Definition requirements_of (reqs : jsval) : obj :=
  let r : obj := {[ "password" := prop reqs "password" ]} in
  let r := if truthy (prop reqs "max_ram")
           then <["max_ram" := prop reqs "max_ram"]>
                  (<["max_memory" := prop reqs "max_ram"]> r)
           else r in
  if truthy (prop reqs "min_ram")
  then <["min_ram" := prop reqs "min_ram"]>
         (<["min_memory" := prop reqs "min_ram"]> r)
  else r.

Definition translate `{Semver} (req : request) (d : obj) : result obj :=
  let o : obj :=
    {[ "id" := get d "uuid";
       "name" := get d "name";
       "version" := get d "version";
       "os" := get d "os";
       "requirements" := JObj ∅ ]} in
  let o := if truthy (get d "type")
           then <["type" := if strict_eq (get d "type") (JStr "zvol")
                            then JStr "virtualmachine"
                            else JStr "smartmachine"]> o
           else o in
  let o := if truthy (get d "description")
           then <["description" := get d "description"]> o else o in
  let o := if truthy (get d "requirements")
           then <["requirements" := JObj (requirements_of (get d "requirements"))]> o
           else o in
  let isDeprecatedEndpoint := deprecated_endpoint_re (url req) in
  let o := if truthy (get d "urn") && isDeprecatedEndpoint
           then <["urn" := get d "urn"]> o else o in
  let v := getVersion req in
  let o :=
    if negb (String.eqb v "*") && satisfies "6.5.0" v then
      let o := <["default" :=
                   js_and (dataset req)
                     (JBool (strict_eq (prop (dataset req) "uuid")
                                       (get d "uuid")))]> o in
      if truthy (get d "published_at")
      then <["created" := get d "published_at"]> o else o
    else o in
  copy_fields d (fieldNames req) o.

Definition loadImage (req : request) : reply obj :=
  let _d := js_or (param req "dataset") (param req "image") in
  imgapi_getImage (sdc req) _d.

(** The search filters a list endpoint passes on. *)
Definition search_filters : list string :=
  ["name"; "os"; "version"; "public"; "state"; "owner"].

Definition image_type (t : jsval) : jsval :=
  get {[ "smartmachine" := JStr "zone-dataset";
         "virtualmachine" := JStr "zvol" ]} (to_string t).

Definition loadImages_opts (req : request) : obj :=
  let opts : obj := {[ "account" := JStr (uuid (account req)) ]} in
  if negb (contains "/machines" (url req)) &&
     ((contains "/images" (url req) || contains "/datasets" (url req)) &&
      negb (contains "/images/" (url req) || contains "/datasets/" (url req)))
  then
    let opts :=
      fold_left
        (fun (opts : obj) k =>
           if truthy (param req k) then <[k := param req k]> opts else opts)
        search_filters opts in
    if truthy (param req "type")
    then <["type" := image_type (param req "type")]> opts
    else opts
  else opts.

Definition loadImages (req : request) : reply (list obj) :=
  imgapi_listImages (sdc req) (loadImages_opts req).

Definition loadDisabledImages (req : request) : reply (list obj) :=
  if contains "/machines" (url req) &&
     negb (contains "/machines/" (url req)) &&
     negb (String.eqb (toUpperCase (method req)) "POST")
  then imgapi_listImages (sdc req) {[ "state" := JStr "disabled" ]}
  else Replied [].

Definition getImage (req : request) : request * outcome :=
  if truthy (dataset req) then (req, Next) else
  match loadImage req with
  | Failed err => (req, NextErr err)
  | Replied img =>
      if strict_eq (get img "state") (JStr "destroyed") then
        (req, NextErr (ResourceNotFoundError
                         (to_string (get img "uuid") +:+ " not found")))
      else (set_dataset (JObj img) req, Next)
  end.

(** The test of [curImg65]'s first filter. *)
Definition matches65 (_d : jsval) (d : obj) : bool :=
  strict_eq _d (get d "uuid") || strict_eq _d (get d "urn") ||
  strict_eq _d (get d "name").

(** The test of its second filter. *)
Definition is_smartos (d : obj) : bool :=
  strict_eq (get d "name") (JStr "smartos").

(** The test of [curImg70]'s loop. *)
Definition matches70 (imageUUID : jsval) (d : obj) : bool :=
  strict_eq imageUUID (get d "uuid") || strict_eq imageUUID (get d "urn").

(** Reading [req.datasets] when no list was loaded throws. *)
Definition curImg65 `{Semver} (req : request) : result request :=
  match datasets req with
  | None => Throw TypeError
  | Some ds =>
      let candidates :=
        if truthy (js_or (param req "dataset") (param req "image")) then
          let _d := js_or (param req "dataset") (param req "image") in
          List.filter (matches65 _d) ds
        else List.filter is_smartos ds in
      if negb (length candidates =? 0)%nat then
        selected ← reduce newest candidates;
        Ok (set_dataset (JObj selected) req)
      else Ok req
  end.

Definition curImg70 (req : request) : result request :=
  let imageUUID := js_or (param req "image") (param req "dataset") in
  if truthy imageUUID then
    match datasets req with
    | None => Throw TypeError
    | Some ds =>
        match List.find (matches70 imageUUID) ds with
        | Some d => Ok (set_dataset (JObj d) req)
        | None => Ok req
        end
    end
  else Ok req.

Definition load `{Semver} (req : request) : request * outcome :=
  if String.eqb (url req) "/--ping" then (req, Next) else
  let req := set_dataset (JBool false) req in
  let imageUUID := js_or (param req "image") (param req "dataset") in
  if truthy imageUUID && test UUID_RE imageUUID then getImage req else
  if contains "/machines/" (url req) then (req, Next) else
  if negb (contains "/datasets" (url req) || contains "/machines" (url req) ||
           contains "/images" (url req)) then (req, Next) else
  match loadImages req with
  | Failed err => (req, NextErr err)
  | Replied ds =>
      let req := set_datasets ds req in
      match loadDisabledImages req with
      | Failed err2 => (req, NextErr err2)
      | Replied imgs =>
          let req := set_datasets (ds ++ imgs) req in
          let loadCurFunc :=
            if contains "6.5" (getVersion req) then curImg65 else curImg70 in
          match loadCurFunc req with
          | Ok req' => (req', Next)
          | Throw e => (req, Thrown e)
          end
      end
  end.

(** The legacy post-filter of [list]. *)
Definition has_urn (d : obj) : bool := defined (get d "urn").

(** What [list] sends, and how it hands over. *)
Definition list `{Semver} (req : request)
  : option (Datatypes.list obj) * outcome :=
  match datasets req with
  | None => (None, Thrown TypeError)
  | Some ds =>
      match map_throw (translate req) ds with
      | Throw e => (None, Thrown e)
      | Ok translated =>
          let translated :=
            if contains "6.5" (getVersion req)
            then List.filter has_urn translated
            else translated in
          (Some translated, Next)
      end
  end.

(** [bleedingEdgeGuard(config, feature)] applied to a request; [features]
    and [whitelist] are [config.bleeding_edge_features] and
    [config.bleeding_edge_login_whitelist]. *)
Definition bleedingEdgeGuard (features whitelist : jsval) (feature : string)
    (req : request) : outcome :=
  if truthy (js_and features (prop features feature)) then
    if truthy (js_and whitelist
                 (js_or (prop whitelist (login (account req)))
                        (prop whitelist "*")))
    then Next
    else NextErr (ResourceNotFoundError (url req +:+ " does not exist"))
  else NextErr (ResourceNotFoundError (url req +:+ " does not exist")).

(** The middleware [mount] puts before every handler: it copies the two
    configuration entries onto the request. *)
Definition reqBleedingEdge (features whitelist : jsval) (r : request)
  : request :=
  {| url := url r; method := method r; getVersion := getVersion r;
     params := params r; account := account r; sdc := sdc r;
     max_packages_lifetime := max_packages_lifetime r;
     bleedingEdgeFeatures := features;
     bleedingEdgeLoginWhitelist := whitelist;
     pkg := pkg r; packages := packages r;
     dataset := dataset r; datasets := datasets r |}.

(** [get] answers with the translation of the selected image, and with a
    not-found error when the preload selected none. *)
Definition get `{Semver} (req : request) : option obj * outcome :=
  let _d := param req "dataset" in
  if negb (truthy (dataset req)) then
    (None, NextErr (ResourceNotFoundError (to_string _d +:+ " not found")))
  else
    match translate req (own (dataset req)) with
    | Ok shown => (Some shown, Next)
    | Throw e => (None, Thrown e)
    end.

End Datasets.

(** ** A cache that follows the specification *)

Module SpecCache.

(** What reached the store. *)
Inductive op : Type :=
| Read (key : string)
| Write_ (key : string) (ttl : Z) (value : list obj).

(** The store: its entries with their lifetimes, whether it is failing, and
    the operations that reached it so far. *)
Record store : Type := {
  entries : gmap string (Z * list obj);
  fault : option error;
  ops : list op
}.

(** Modelled from the spec: [lib/cache.js] is not among the sources. The
    result cache is read-through, keyed by tenant, with a per-request bypass
    predicate: when the request may not use the cache, [get] answers a miss
    and the store is not touched; otherwise the read reaches the store, and
    answers its error when the store fails, the entry under the key when
    there is one, and a miss when there is none. Expiry is the store's. *)
Definition get (req : request) (key : string) (canUseCache : bool) (c : store)
  : (option error * option (list obj)) * store :=
  if canUseCache then
    let c' := {| entries := entries c; fault := fault c;
                 ops := ops c ++ [Read key] |} in
    match fault c with
    | Some e => ((Some e, None), c')
    | None => ((None, snd <$> entries c !! key), c')
    end
  else ((None, None), c).

(** Modelled from the spec: [lib/cache.js] is not among the sources. [set]
    writes the value under the key with its lifetime in seconds; it is
    best-effort, so a failing store keeps its entries. *)
Definition set (req : request) (key : string) (ttl : Z) (value : list obj)
    (c : store) : store :=
  {| entries := match fault c with
                | Some _ => entries c
                | None => <[key := (ttl, value)]> (entries c)
                end;
     fault := fault c;
     ops := ops c ++ [Write_ key ttl value] |}.

#[export] Instance cache : Cache :=
  {| cache_state := store; cache_get := get; cache_set := set |}.

Definition empty : store := {| entries := ∅; fault := None; ops := [] |}.

End SpecCache.

(** ** A semver to run the model on

    The [MAJOR.MINOR.PATCH] versions of semver with their order, and the
    ranges [*], [~MAJOR.MINOR] and an exact version. *)

Module NumericSemver.

Definition is_digit (c : ascii) : bool :=
  let n := nat_of_ascii c in ((48 <=? n) && (n <=? 57))%nat.

Fixpoint number (s : string) (acc : N) : option N :=
  match s with
  | EmptyString => Some acc
  | String c t =>
      if is_digit c
      then number t (10 * acc + N.of_nat (nat_of_ascii c - 48))%N
      else None
  end.

(** A numeric identifier: digits, with no leading zero. *)
Definition numeric_identifier (s : string) : option N :=
  match s with
  | EmptyString => None
  | String "0"%char EmptyString => Some 0%N
  | String "0"%char _ => None
  | _ => number s 0%N
  end.

(** The parts of [s] between dots. *)
Fixpoint split_dots (s : string) : list string :=
  match s with
  | EmptyString => [EmptyString]
  | String c t =>
      if Ascii.eqb c "."%char then EmptyString :: split_dots t
      else match split_dots t with
           | [] => [String c EmptyString]
           | part :: parts => String c part :: parts
           end
  end.

Definition parse (s : string) : option (N * N * N) :=
  match split_dots s with
  | [a; b; c] =>
      x ← numeric_identifier a;
      y ← numeric_identifier b;
      z ← numeric_identifier c;
      Some (x, y, z)
  | _ => None
  end.

Definition ge (a b : N * N * N) : bool :=
  let '(a1, a2, a3) := a in
  let '(b1, b2, b3) := b in
  ((b1 <? a1) ||
   ((a1 =? b1) && ((b2 <? a2) || ((a2 =? b2) && (b3 <=? a3)))))%N.

Definition in_range (v r : string) : bool :=
  match parse v with
  | None => false
  | Some (x, y, z) =>
      if String.eqb r "*" then true
      else match r with
           | String "~"%char mm =>
               match split_dots mm with
               | [a; b] =>
                   match numeric_identifier a, numeric_identifier b with
                   | Some x', Some y' => ((x =? x') && (y =? y'))%N
                   | _, _ => false
                   end
               | _ => false
               end
           | _ =>
               match parse r with
               | Some (x', y', z') => ((x =? x') && (y =? y') && (z =? z'))%N
               | None => false
               end
           end
  end.

#[export] Instance lib : Semver :=
  {| semver := N * N * N; valid := parse; gte := ge; satisfies := in_range |}.

End NumericSemver.

(** ** Notions the properties are stated with *)

(** The version of [p] is valid and at least the valid version of [q]. *)
Definition version_gte `{Semver} (p q : obj) : bool :=
  match js_valid (get p "version"), js_valid (get q "version") with
  | Some a, Some b => gte a b
  | _, _ => false
  end.

Definition has_valid_version `{Semver} (p : obj) : Prop :=
  is_Some (js_valid (get p "version")).

(** [id] is strictly equal to one of the properties [keys] of [d]. *)
Definition names_by (keys : list string) (id : jsval) (d : obj) : Prop :=
  exists k, k ∈ keys /\ strict_eq id (get d k) = true.

(** The parameters that narrow a package listing. *)
Definition narrowing_params : list string :=
  ["name"; "memory"; "disk"; "swap"; "version"; "vcpus"; "group"].

(** The error codes [errorObjFromImgapiImage] passes on. *)
Definition known_codes : list string :=
  ["PrepareImageDidNotRun"; "VmHasNoOrigin"; "NotSupported"].

(** The steps in which [translate] builds its object before it copies the
    version-gated fields. *)
Definition with_type (d o : obj) : obj :=
  if truthy (get d "type")
  then <["type" := if strict_eq (get d "type") (JStr "zvol")
                   then JStr "virtualmachine"
                   else JStr "smartmachine"]> o
  else o.

Definition with_description (d o : obj) : obj :=
  if truthy (get d "description")
  then <["description" := get d "description"]> o else o.

Definition with_requirements (d o : obj) : obj :=
  if truthy (get d "requirements")
  then <["requirements" :=
           JObj (Datasets.requirements_of (get d "requirements"))]> o
  else o.

Definition with_urn (req : request) (d o : obj) : obj :=
  if truthy (get d "urn") && deprecated_endpoint_re (url req)
  then <["urn" := get d "urn"]> o else o.

Definition with_legacy `{Semver} (req : request) (d o : obj) : obj :=
  if negb (String.eqb (getVersion req) "*") &&
     satisfies "6.5.0" (getVersion req) then
    let o := <["default" :=
                 js_and (dataset req)
                   (JBool (strict_eq (prop (dataset req) "uuid")
                                     (get d "uuid")))]> o in
    if truthy (get d "published_at")
    then <["created" := get d "published_at"]> o else o
  else o.

Definition translate_base `{Semver} (req : request) (d : obj) : obj :=
  with_legacy req d
    (with_urn req d
       (with_requirements d
          (with_description d
             (with_type d
                {[ "id" := get d "uuid";
                   "name" := get d "name";
                   "version" := get d "version";
                   "os" := get d "os";
                   "requirements" := JObj ∅ ]})))).

(** The fields of an image that only some versions show. *)
Definition fields_7_0 : list string := ["homepage"; "published_at"].
Definition fields_7_1 : list string :=
  ["owner"; "public"; "state"; "eula"; "acl"; "origin"; "error"].

(** ** Sample requests *)

Module Sample.

Definition tenant : account_t :=
  {| uuid := "930896af-bf8c-48d4-885c-6573a94b1853"; login := "t1" |}.

(** Clients whose every call fails. *)
Definition down : clients :=
  {| papi_get := fun _ _ => Failed (ClientError "ServiceUnavailable");
     papi_list := fun _ => Failed (ClientError "ServiceUnavailable");
     imgapi_getImage := fun _ => Failed (ClientError "ServiceUnavailable");
     imgapi_listImages := fun _ => Failed (ClientError "ServiceUnavailable") |}.

(** A fresh request: nothing selected, no candidate list. *)
Definition request_of (u m v : string) (ps : obj) (cl : clients) : request :=
  {| url := u; method := m; getVersion := v; params := ps;
     account := tenant; sdc := cl; max_packages_lifetime := 60;
     bleedingEdgeFeatures := JUndefined;
     bleedingEdgeLoginWhitelist := JUndefined;
     pkg := JUndefined; packages := None;
     dataset := JUndefined; datasets := None |}.

Definition package (name version : string) (memory : Z) : obj :=
  {[ "uuid" := JStr ("pkg-" +:+ name +:+ "-" +:+ version);
     "name" := JStr name; "version" := JStr version;
     "max_physical_memory" := JNum memory; "quota" := JNum 10240;
     "max_swap" := JNum (2 * memory); "vcpus" := JNum 1;
     "description" := JStr "a package"; "group" := JStr "standard";
     "active" := JBool true ]}.

Definition small_1_0_0 : obj := package "small" "1.0.0" 1024.
Definition small_1_1_0 : obj := package "small" "1.1.0" 1024.

(** A package catalog that holds the two [small] packages. *)
Definition papi_small : clients :=
  {| papi_get := fun _ _ => Failed (ResourceNotFoundError "not found");
     papi_list := fun _ => Replied [small_1_0_0; small_1_1_0];
     imgapi_getImage := fun _ => Failed (ClientError "ServiceUnavailable");
     imgapi_listImages := fun _ => Failed (ClientError "ServiceUnavailable") |}.

Definition image_id : string := "e4cef2d0-3b3f-11e4-9c2a-0800200c9a66".

Definition image (state : string) : obj :=
  {[ "uuid" := JStr image_id; "name" := JStr "base";
     "version" := JStr "13.4.0"; "os" := JStr "smartos";
     "type" := JStr "zone-dataset"; "state" := JStr state ]}.

(** An image catalog that answers every fetch with the image in [state]. *)
Definition imgapi_with (state : string) : clients :=
  {| papi_get := fun _ _ => Failed (ClientError "ServiceUnavailable");
     papi_list := fun _ => Failed (ClientError "ServiceUnavailable");
     imgapi_getImage := fun _ => Replied (image state);
     imgapi_listImages := fun _ => Replied [image state] |}.

(** [GET /t1/images/:image] for the sample image. *)
Definition get_image (state : string) : request :=
  request_of ("/t1/images/" +:+ image_id) "GET" "~7.0"
    {[ "account" := JStr "t1"; "image" := JStr image_id ]}
    (imgapi_with state).

(** A candidate image. *)
Definition candidate (id urn name version : string) : obj :=
  {[ "uuid" := JStr id; "urn" := JStr urn; "name" := JStr name;
     "version" := JStr version; "os" := JStr "smartos";
     "type" := JStr "zone-dataset" ]}.

Definition base_1 : obj :=
  candidate "01b2c898-945f-11e1-a523-af1afbe22822" "sdc:sdc:base" "base" "1.0.0".
Definition base_2 : obj :=
  candidate "f953e97e-4991-11e1-9ea4-27c6e7e8afda" "sdc:sdc:base" "base" "2.0.0".
Definition smartos_1 : obj :=
  candidate "febaa412-6417-11e0-bc56-535d219f2590" "sdc:sdc:smartos" "smartos" "1.3.12".
Definition smartos_2 : obj :=
  candidate "a0f8cf30-f2ea-11e1-8a51-5793736be67c" "sdc:sdc:smartos" "smartos" "1.3.18".

Definition images : list obj := [base_1; smartos_1; base_2; smartos_2].

(** A request whose candidate list is loaded. *)
Definition with_images (u v : string) (ps : obj) : request :=
  set_datasets images (set_dataset (JBool false) (request_of u "GET" v ps down)).

(** [GET /t1/packages/small]. *)
Definition get_small : request :=
  request_of "/t1/packages/small" "GET" "~7.0"
    {[ "account" := JStr "t1"; "package" := JStr "small" ]} papi_small.

(** [GET /t1/datasets/sdc:sdc:base] from a legacy client, candidates
    loaded. *)
Definition get_base : request :=
  with_images "/t1/datasets/sdc:sdc:base" "~6.5"
    {[ "account" := JStr "t1"; "dataset" := JStr "sdc:sdc:base" ]}.

(** [GET /t1/machines] from a legacy client, candidates loaded. *)
Definition list_machines : request :=
  with_images "/t1/machines" "~6.5" {[ "account" := JStr "t1" ]}.

(** The default package of the tenant. *)
Definition default_small : obj := <["default" := JBool true]> small_1_1_0.

(** Both catalogs up: two packages, one of them the default, and the sample
    images. *)
Definition catalog : clients :=
  {| papi_get := fun _ _ => Replied default_small;
     papi_list := fun _ => Replied [small_1_0_0; default_small];
     imgapi_getImage := fun _ => Replied (image "active");
     imgapi_listImages := fun _ => Replied images |}.

(** [POST /t1/machines/:machine?action=resize]. *)
Definition resize : request :=
  request_of "/t1/machines/9205cd4b-6b9e-4b8c-b8c2-b1e9aeb5b21f" "POST" "~7.0"
    {[ "account" := JStr "t1"; "action" := JStr "resize";
       "machine" := JStr "9205cd4b-6b9e-4b8c-b8c2-b1e9aeb5b21f" ]} catalog.

(** [GET /t1/datasets] from a client of version [v]. *)
Definition list_datasets (v : string) : request :=
  request_of "/t1/datasets" "GET" v {[ "account" := JStr "t1" ]} catalog.

(** [GET /t1/packages?name=]: the [name] parameter is there, and empty. *)
Definition list_packages_empty_name : request :=
  request_of "/t1/packages?name=" "GET" "~7.0"
    {[ "account" := JStr "t1"; "name" := JStr "" ]} papi_small.

(** [GET /t1/packages?name=small&tag=x]. *)
Definition list_packages_named : request :=
  request_of "/t1/packages?name=small&tag=x" "GET" "~7.0"
    {[ "account" := JStr "t1"; "name" := JStr "small"; "tag" := JStr "x" ]}
    papi_small.

(** [GET /t1/datasets] once the preload has run: one candidate with a
    [urn], one without, nothing selected. *)
Definition listing_datasets (v : string) : request :=
  set_datasets [base_1; image "active"]
    (set_dataset (JBool false) (list_datasets v)).

(** What a client sees of [base_1] and of the sample image on the deprecated
    endpoint. *)
Definition shown_base_1 : obj :=
  {[ "id" := JStr "01b2c898-945f-11e1-a523-af1afbe22822";
     "name" := JStr "base"; "version" := JStr "1.0.0"; "os" := JStr "smartos";
     "requirements" := JObj ∅; "type" := JStr "smartmachine";
     "urn" := JStr "sdc:sdc:base" ]}.

Definition shown_image : obj :=
  {[ "id" := JStr image_id; "name" := JStr "base";
     "version" := JStr "13.4.0"; "os" := JStr "smartos";
     "requirements" := JObj ∅; "type" := JStr "smartmachine" ]}.

(** An image with the fields only some versions show, one of them a
    backend error. *)
Definition failed_image : obj :=
  <["homepage" := JStr "https://example.com/base"]>
    (<["owner" := JStr "930896af-bf8c-48d4-885c-6573a94b1853"]>
       (<["published_at" := JStr "2014-05-01T12:00:00Z"]>
          (<["tags" := JObj {[ "role" := JStr "db" ]}]>
             (<["error" := JObj {[ "code" := JStr "ECONNREFUSED";
                                   "message" := JStr "connect 10.0.0.5" ]}]>
                (image "failed"))))).

(** The same image with a [null] error. *)
Definition null_error_image : obj := <["error" := JNull]> failed_image.

(** [GET /t1/images] from a client of version [v], nothing selected. *)
Definition list_images (v : string) : request :=
  set_dataset (JBool false)
    (request_of "/t1/images" "GET" v {[ "account" := JStr "t1" ]} catalog).

(** What a client of version ~7.0 and one of version ~7.1 see of
    [failed_image] on [/t1/images]. *)
Definition shown_failed_7_0 : obj :=
  <["homepage" := JStr "https://example.com/base"]>
    (<["published_at" := JStr "2014-05-01T12:00:00Z"]>
       (<["tags" := JObj {[ "role" := JStr "db" ]}]> shown_image)).

Definition shown_failed_7_1 : obj :=
  <["owner" := JStr "930896af-bf8c-48d4-885c-6573a94b1853"]>
    (<["state" := JStr "failed"]>
       (<["error" :=
            JObj {[ "code" := JStr "InternalError";
                    "message" := JStr "an unexpected error occurred (Contact support for assistance.)" ]}]>
          shown_failed_7_0)).

(** A package whose version is no semver, alone in its catalog. *)
Definition nightly : obj := package "nightly" "latest" 512.

Definition papi_nightly : clients :=
  {| papi_get := fun _ _ => Failed (ResourceNotFoundError "not found");
     papi_list := fun _ => Replied [nightly];
     imgapi_getImage := fun _ => Failed (ClientError "ServiceUnavailable");
     imgapi_listImages := fun _ => Failed (ClientError "ServiceUnavailable") |}.

(** [GET /t1/packages/nightly]. *)
Definition get_nightly : request :=
  request_of "/t1/packages/nightly" "GET" "~7.0"
    {[ "account" := JStr "t1"; "package" := JStr "nightly" ]} papi_nightly.

(** A package named [packages], alone in its catalog. *)
Definition named_packages : obj := package "packages" "1.0.0" 256.

Definition papi_named_packages : clients :=
  {| papi_get := fun _ _ => Replied named_packages;
     papi_list := fun _ => Replied [named_packages];
     imgapi_getImage := fun _ => Failed (ClientError "ServiceUnavailable");
     imgapi_listImages := fun _ => Failed (ClientError "ServiceUnavailable") |}.

(** [GET /t1/packages/packages]. *)
Definition get_named_packages : request :=
  request_of "/t1/packages/packages" "GET" "~7.0"
    {[ "account" := JStr "t1"; "package" := JStr "packages" ]}
    papi_named_packages.

(** [GET /t1/images/base] from a client of version [v]: an image asked for
    by its name. *)
Definition get_image_named (v : string) : request :=
  request_of "/t1/images/base" "GET" v
    {[ "account" := JStr "t1"; "dataset" := JStr "base" ]} catalog.

(** A cache store that fails. *)
Definition failing_store : SpecCache.store :=
  {| SpecCache.entries := ∅;
     SpecCache.fault := Some (ClientError "ECONNREFUSED");
     SpecCache.ops := [] |}.

(** [GET /t1/packages] from a legacy and from a modern client. *)
Definition list_packages (v : string) : request :=
  request_of "/t1/packages" "GET" v {[ "account" := JStr "t1" ]} papi_small.

End Sample.

(** * Properties *)

(** ** The reference semver is an order *)

Lemma numeric_ge_total (a b : N * N * N) :
  NumericSemver.ge a b = true \/ NumericSemver.ge b a = true.
Proof.
  destruct a as [[a1 a2] a3], b as [[b1 b2] b3]. unfold NumericSemver.ge.
  rewrite !orb_true_iff, !andb_true_iff, !orb_true_iff, !andb_true_iff,
    !N.ltb_lt, !N.eqb_eq, !N.leb_le.
  lia.
Qed.

Lemma numeric_ge_trans (a b c : N * N * N) :
  NumericSemver.ge a b = true -> NumericSemver.ge b c = true ->
  NumericSemver.ge a c = true.
Proof.
  destruct a as [[a1 a2] a3], b as [[b1 b2] b3], c as [[c1 c2] c3].
  unfold NumericSemver.ge.
  rewrite !orb_true_iff, !andb_true_iff, !orb_true_iff, !andb_true_iff,
    !N.ltb_lt, !N.eqb_eq, !N.leb_le.
  lia.
Qed.

#[export] Instance numeric_order : SemverOrder NumericSemver.lib.
Proof.
  split; [exact numeric_ge_total | exact numeric_ge_trans].
Defined.

Example numeric_semver_runs :
  NumericSemver.parse "1.10.0" = Some (1, 10, 0)%N /\
  NumericSemver.parse "1.02.0" = None /\
  NumericSemver.parse "smartos" = None /\
  NumericSemver.ge (1, 10, 0)%N (1, 9, 7)%N = true /\
  NumericSemver.in_range "6.5.0" "~6.5" = true /\
  NumericSemver.in_range "7.0.0" "~6.5" = false /\
  NumericSemver.in_range "6.5.0" "*" = true.
Proof. repeat split; reflexivity. Qed.

(** ** Values and small steps *)

Lemma strict_eq_str (v : jsval) (s : string) :
  strict_eq v (JStr s) = true <-> v = JStr s.
Proof.
  destruct v; simpl; split; try discriminate; intros E.
  - apply String.eqb_eq in E. by subst.
  - injection E as ->. apply String.eqb_refl.
Qed.

Lemma strict_eq_str_false (v : jsval) (s : string) :
  strict_eq v (JStr s) = false <-> v <> JStr s.
Proof.
  rewrite <- strict_eq_str. destruct (strict_eq v (JStr s)); split; congruence.
Qed.

(** ** The package translator *)

(** C4: under a version that names 6.5 the translated package has no [id],
    [version], [description] or [group], whatever the raw package carries;
    under any other version it has [id] and [version], and [description] and
    [group] whenever the raw package has a truthy (non-empty) value there. *)
Theorem translate_package_by_version (req : request) (pkg : obj) :
  (contains "6.5" (getVersion req) = true ->
   Packages.translate req pkg !! "id" = None /\
   Packages.translate req pkg !! "version" = None /\
   Packages.translate req pkg !! "description" = None /\
   Packages.translate req pkg !! "group" = None) /\
  (contains "6.5" (getVersion req) = false ->
   Packages.translate req pkg !! "id" = Some (get pkg "uuid") /\
   Packages.translate req pkg !! "version" = Some (get pkg "version") /\
   (truthy (get pkg "description") = true ->
    Packages.translate req pkg !! "description"
    = Some (get pkg "description")) /\
   (truthy (get pkg "group") = true ->
    Packages.translate req pkg !! "group" = Some (get pkg "group"))).
Proof.
  unfold Packages.translate. split; intros ->; simpl.
  - repeat split; reflexivity.
  - destruct (truthy (get pkg "description")), (truthy (get pkg "group"));
      repeat split; intros; try discriminate; reflexivity.
Qed.

Lemma translate_package_by_version_witness :
  (Packages.translate (Sample.list_packages "~6.5")
     Sample.small_1_1_0 !! "id" = None /\
   Packages.translate (Sample.list_packages "~6.5")
     Sample.small_1_1_0 !! "version" = None) /\
  (Packages.translate (Sample.list_packages "~7.0")
     Sample.small_1_1_0 !! "version" = Some (JStr "1.1.0") /\
   Packages.translate (Sample.list_packages "~7.0")
     Sample.small_1_1_0 !! "group" = Some (JStr "standard")).
Proof.
  split.
  - destruct (translate_package_by_version
                (Sample.list_packages "~6.5")
                Sample.small_1_1_0) as [legacy _].
    destruct (legacy eq_refl) as (Hid & Hversion & _). exact (conj Hid Hversion).
  - destruct (translate_package_by_version
                (Sample.list_packages "~7.0")
                Sample.small_1_1_0) as [_ modern].
    destruct (modern eq_refl) as (_ & Hversion & _ & Hgroup).
    exact (conj Hversion (Hgroup eq_refl)).
Defined.

(** ** The error translator *)

Lemma copy_error_object (image e0 : obj) (err : jsval) :
  get image "error" = err -> err <> JUndefined -> err <> JNull ->
  Datasets.copy_error image e0
  = Ok (<["message" := prop err "message"]> (<["code" := prop err "code"]> e0)).
Proof.
  intros Herr Hu Hn. subst err. unfold Datasets.copy_error.
  destruct (get image "error"); try congruence; reflexivity.
Qed.

(** C8: for an image that carries an error (any value but [undefined] and
    [null]), each of the codes PrepareImageDidNotRun, VmHasNoOrigin and
    NotSupported is translated to the pair of that code and the error's own
    message, and every other code to one fixed pair, InternalError with a
    generic message, in which nothing of the raw error appears. *)
Theorem errorObjFromImgapiImage_codes (image : obj) (err : jsval) :
  get image "error" = err -> err <> JUndefined -> err <> JNull ->
  (forall c, c ∈ known_codes -> prop err "code" = JStr c ->
   Datasets.errorObjFromImgapiImage image
   = Ok {[ "code" := JStr c; "message" := prop err "message" ]}) /\
  ((forall c, c ∈ known_codes -> prop err "code" <> JStr c) ->
   Datasets.errorObjFromImgapiImage image
   = Ok {[ "code" := JStr "InternalError";
           "message" := JStr "an unexpected error occurred (Contact support for assistance.)" ]}).
Proof.
  intros Herr Hu Hn.
  assert (Hcode : prop_of (get image "error") "code" = Ok (prop err "code")).
  { rewrite Herr. destruct err; try congruence; reflexivity. }
  split.
  - intros c Hc Hcode'. unfold Datasets.errorObjFromImgapiImage.
    rewrite Hcode. simpl. rewrite Hcode'.
    rewrite !(copy_error_object image ∅ err Herr Hu Hn), Hcode'.
    unfold known_codes in Hc.
    apply list_elem_of_In in Hc. simpl in Hc.
    destruct Hc as [<- | [<- | [<- | []]]]; reflexivity.
  - intros Hother. unfold Datasets.errorObjFromImgapiImage.
    rewrite Hcode. simpl.
    assert (Hno : forall c, c ∈ known_codes ->
                            strict_eq (prop err "code") (JStr c) = false).
    { intros c Hc. apply strict_eq_str_false. by apply Hother. }
    rewrite !Hno by (unfold known_codes; set_solver).
    reflexivity.
Qed.

Lemma errorObjFromImgapiImage_codes_witness :
  Datasets.errorObjFromImgapiImage
    {[ "error" := JObj {[ "code" := JStr "VmHasNoOrigin";
                          "message" := JStr "vm has no origin" ]} ]}
  = Ok {[ "code" := JStr "VmHasNoOrigin";
          "message" := JStr "vm has no origin" ]} /\
  Datasets.errorObjFromImgapiImage
    {[ "error" := JObj {[ "code" := JStr "ECONNREFUSED";
                          "message" := JStr "connect 10.0.0.5:6379" ]} ]}
  = Ok {[ "code" := JStr "InternalError";
          "message" := JStr "an unexpected error occurred (Contact support for assistance.)" ]}.
Proof.
  split.
  - refine (proj1 (errorObjFromImgapiImage_codes
             {[ "error" := JObj {[ "code" := JStr "VmHasNoOrigin";
                                   "message" := JStr "vm has no origin" ]} ]}
             (JObj {[ "code" := JStr "VmHasNoOrigin";
                      "message" := JStr "vm has no origin" ]})
             eq_refl _ _) "VmHasNoOrigin" _ eq_refl).
    + discriminate.
    + discriminate.
    + unfold known_codes. apply list_elem_of_In. simpl. auto.
  - refine (proj2 (errorObjFromImgapiImage_codes
             {[ "error" := JObj {[ "code" := JStr "ECONNREFUSED";
                                   "message" := JStr "connect 10.0.0.5:6379" ]} ]}
             (JObj {[ "code" := JStr "ECONNREFUSED";
                      "message" := JStr "connect 10.0.0.5:6379" ]})
             eq_refl _ _) _).
    + discriminate.
    + discriminate.
    + intros c Hc. unfold known_codes in Hc. apply list_elem_of_In in Hc.
      simpl in Hc. destruct Hc as [<- | [<- | [<- | []]]]; discriminate.
Defined.

(** ** Fetching one image *)

Lemma load_disabled_image_is_selected :
  test UUID_RE (param (Sample.get_image "disabled") "image") = true /\
  Datasets.loadImage (Sample.get_image "disabled")
  = Replied (Sample.image "disabled") /\
  get (Sample.image "disabled") "state" = JStr "disabled" /\
  @Datasets.load NumericSemver.lib (Sample.get_image "disabled")
  = (set_dataset (JObj (Sample.image "disabled"))
       (Sample.get_image "disabled"), Next).
Proof. repeat split; reflexivity. Qed.

(** C6, amended: an image fetched by a UUID-shaped identifier whose record
    is in state [destroyed] is not selected: [load] hands over a not-found
    error and leaves [req.dataset] at [false]. *)
Theorem load_destroyed_image_not_found `{Semver} (req : request) (img : obj) :
  url req <> "/--ping" ->
  truthy (js_or (param req "image") (param req "dataset")) = true ->
  test UUID_RE (js_or (param req "image") (param req "dataset")) = true ->
  Datasets.loadImage req = Replied img ->
  get img "state" = JStr "destroyed" ->
  Datasets.load req
  = (set_dataset (JBool false) req,
     NextErr (ResourceNotFoundError
                (to_string (get img "uuid") +:+ " not found"))) /\
  dataset (Datasets.load req).1 = JBool false.
Proof.
  intros Hping Hid Huuid Himg Hstate.
  assert (E : Datasets.load req
              = (set_dataset (JBool false) req,
                 NextErr (ResourceNotFoundError
                            (to_string (get img "uuid") +:+ " not found")))).
  { unfold Datasets.load.
    apply String.eqb_neq in Hping. rewrite Hping.
    change (param (set_dataset (JBool false) req)) with (param req).
    rewrite Hid, Huuid. simpl.
    unfold Datasets.getImage. simpl.
    change (Datasets.loadImage (set_dataset (JBool false) req))
      with (Datasets.loadImage req).
    rewrite Himg, Hstate. reflexivity. }
  split; [exact E | by rewrite E].
Qed.

Lemma load_destroyed_image_not_found_witness :
  @Datasets.load NumericSemver.lib (Sample.get_image "destroyed")
  = (set_dataset (JBool false) (Sample.get_image "destroyed"),
     NextErr (ResourceNotFoundError
                "e4cef2d0-3b3f-11e4-9c2a-0800200c9a66 not found")).
Proof.
  exact (proj1 (@load_destroyed_image_not_found NumericSemver.lib
                  (Sample.get_image "destroyed") (Sample.image "destroyed")
                  ltac:(discriminate) eq_refl eq_refl eq_refl eq_refl)).
Defined.

(** ** Newest wins *)

Lemma version_gte_refl `{SemverOrder} (p : obj) :
  has_valid_version p -> version_gte p p = true.
Proof.
  intros [v Hv]. unfold version_gte. rewrite Hv.
  by destruct (gte_total v v).
Qed.

Lemma version_gte_trans `{SemverOrder} (p q r : obj) :
  version_gte p q = true -> version_gte q r = true -> version_gte p r = true.
Proof.
  unfold version_gte.
  destruct (js_valid (get p "version")), (js_valid (get q "version")),
    (js_valid (get r "version")); try discriminate.
  apply gte_trans.
Qed.

(** One call of the callback, on two valid versions. *)
Lemma newest_valid `{SemverOrder} (a b : obj) :
  has_valid_version a -> has_valid_version b ->
  (version_gte a b = true /\ newest a b = Ok a) \/
  (version_gte b a = true /\ newest a b = Ok b).
Proof.
  intros [va Ha] [vb Hb]. unfold newest, version_gte. rewrite Ha, Hb. simpl.
  destruct (gte va vb) eqn:E.
  - by left.
  - right. by destruct (gte_total va vb) as [E' | E']; [congruence |].
Qed.

(** Whatever the versions, the callback returns one of its arguments. *)
Lemma newest_either `{Semver} (a b p : obj) :
  newest a b = Ok p -> p = a \/ p = b.
Proof.
  unfold newest.
  destruct (semver_gte (js_valid (get a "version"))
              (js_valid (get b "version"))) as [[] |];
    simpl; intros [= <-]; auto.
Qed.

Lemma elem_of_skip {A : Type} (x a b : A) (t : list A) :
  x ∈ a :: t -> x ∈ a :: b :: t.
Proof.
  rewrite !elem_of_cons. tauto.
Qed.

(** The fold keeps an element that is at least the accumulator and every
    element it went through. *)
Lemma reduce_from_newest `{SemverOrder} (l : list obj) (acc : obj) :
  has_valid_version acc -> Forall has_valid_version l ->
  exists p, reduce_from newest acc l = Ok p /\ p ∈ acc :: l /\
            forall q, q ∈ acc :: l -> version_gte p q = true.
Proof.
  revert acc. induction l as [| b t IH]; intros acc Hacc Hl.
  - exists acc. split; [reflexivity | split; [apply list_elem_of_here |]].
    intros q Hq. apply list_elem_of_singleton in Hq as ->.
    by apply version_gte_refl.
  - apply Forall_cons in Hl as [Hb Ht]. simpl.
    destruct (newest_valid acc b Hacc Hb) as [[Hge ->] | [Hge ->]]; simpl.
    + destruct (IH acc Hacc Ht) as (p & Hp & Hmem & Hmax).
      exists p. split; [exact Hp | split; [by apply elem_of_skip |]].
      intros q Hq. apply elem_of_cons in Hq as [-> | Hq].
      * apply Hmax, list_elem_of_here.
      * apply elem_of_cons in Hq as [-> | Hq].
        -- apply version_gte_trans with acc;
             [apply Hmax, list_elem_of_here | exact Hge].
        -- apply Hmax. by apply list_elem_of_further.
    + destruct (IH b Hb Ht) as (p & Hp & Hmem & Hmax).
      exists p. split; [exact Hp | split; [by apply list_elem_of_further |]].
      intros q Hq. apply elem_of_cons in Hq as [-> | Hq].
      * apply version_gte_trans with b;
          [apply Hmax, list_elem_of_here | exact Hge].
      * apply Hmax. exact Hq.
Qed.

Lemma reduce_newest `{SemverOrder} (l : list obj) :
  l <> [] -> Forall has_valid_version l ->
  exists p, reduce newest l = Ok p /\ p ∈ l /\
            forall q, q ∈ l -> version_gte p q = true.
Proof.
  destruct l as [| a t]; [congruence |]. intros _ Hl.
  apply Forall_cons in Hl as [Ha Ht]. by apply reduce_from_newest.
Qed.

(** Whatever the versions, what the fold returns is one of the elements. *)
Lemma reduce_from_newest_elem `{Semver} (l : list obj) (acc p : obj) :
  reduce_from newest acc l = Ok p -> p ∈ acc :: l.
Proof.
  revert acc. induction l as [| b t IH]; intros acc; simpl.
  - intros [= ->]. apply list_elem_of_here.
  - destruct (newest acc b) as [c |] eqn:E; simpl; [| discriminate].
    intros Hp. apply IH in Hp.
    destruct (newest_either _ _ _ E) as [-> | ->].
    + by apply elem_of_skip.
    + by apply list_elem_of_further.
Qed.

Lemma reduce_newest_elem `{Semver} (l : list obj) (p : obj) :
  reduce newest l = Ok p -> p ∈ l.
Proof.
  destruct l as [| a t]; simpl; [discriminate |].
  apply reduce_from_newest_elem.
Qed.

(** ** Resolving a package by name *)

(** C1: when the [package] parameter is there and is not UUID-shaped, and the
    catalog answers the by-name search with packages of valid versions, a
    non-empty answer makes [req.pkg] one of the answered packages whose
    version is at least every other's; an empty answer leaves [req.pkg] at
    [false] and hands over with no error. *)
Theorem loadPackages_by_name_newest `{SemverOrder} (req : request)
    (pkgs : list obj) :
  url req <> "/--ping" ->
  ends_with "/packages" (pathname (url req)) = false ->
  truthy (param req "package") = true ->
  test UUID_RE (param req "package") = false ->
  papi_list (sdc req) (Packages.by_name_filter req) = Replied pkgs ->
  Forall has_valid_version pkgs ->
  (pkgs = [] ->
   Packages.loadPackages req = (set_pkg (JBool false) req, Next)) /\
  (pkgs <> [] ->
   exists p, Packages.loadPackages req = (set_pkg (JObj p) req, Next) /\
             p ∈ pkgs /\
             forall q, q ∈ pkgs -> version_gte p q = true).
Proof.
  intros Hping Hpath Hname Hre Hlist Hvalid.
  assert (E : Packages.loadPackages req
              = if (length pkgs =? 0)%nat
                then (set_pkg (JBool false) req, Next)
                else Packages.select_newest (set_pkg (JBool false) req) pkgs).
  { unfold Packages.loadPackages.
    apply String.eqb_neq in Hping. rewrite Hping. cbv zeta.
    change (url (set_pkg (JBool false) req)) with (url req).
    change (param (set_pkg (JBool false) req)) with (param req).
    change (sdc (set_pkg (JBool false) req)) with (sdc req).
    change (Packages.by_name_filter (set_pkg (JBool false) req))
      with (Packages.by_name_filter req).
    by rewrite Hpath, Hname, Hre, Hlist. }
  split.
  - intros ->. exact E.
  - intros Hne. destruct (reduce_newest pkgs Hne Hvalid) as (p & Hp & Hmem & Hmax).
    exists p. split; [| by split].
    rewrite E. destruct pkgs as [| a t]; [congruence |].
    unfold Packages.select_newest. simpl length. simpl Nat.eqb. cbv iota.
    by rewrite Hp.
Qed.

Lemma loadPackages_by_name_newest_witness :
  exists p,
    @Packages.loadPackages NumericSemver.lib
      Sample.get_small
    = (set_pkg (JObj p)
         Sample.get_small, Next) /\
    p ∈ [Sample.small_1_0_0; Sample.small_1_1_0] /\
    forall q, q ∈ [Sample.small_1_0_0; Sample.small_1_1_0] ->
              @version_gte NumericSemver.lib p q = true.
Proof.
  refine (proj2 (@loadPackages_by_name_newest NumericSemver.lib numeric_order
            Sample.get_small
            [Sample.small_1_0_0; Sample.small_1_1_0]
            _ eq_refl eq_refl eq_refl eq_refl _) _).
  - discriminate.
  - repeat constructor; eexists; reflexivity.
  - discriminate.
Defined.

(** The scenario of the specification: of [small] 1.0.0 and 1.1.0, the
    resolver selects 1.1.0. *)
Example loadPackages_small :
  pkg (@Packages.loadPackages NumericSemver.lib
         Sample.get_small).1
  = JObj Sample.small_1_1_0.
Proof. reflexivity. Qed.

(** ** The current image, legacy and modern *)

Lemma matches65_names (id : jsval) (d : obj) :
  Datasets.matches65 id d = true <-> names_by ["uuid"; "urn"; "name"] id d.
Proof.
  unfold Datasets.matches65, names_by. rewrite !orb_true_iff. split.
  - intros [[E | E] | E]; eexists; (split; [| exact E]);
      apply list_elem_of_In; simpl; auto.
  - intros (k & Hk & E). apply list_elem_of_In in Hk. simpl in Hk.
    destruct Hk as [<- | [<- | [<- | []]]]; auto.
Qed.

Lemma matches70_names (id : jsval) (d : obj) :
  Datasets.matches70 id d = true <-> names_by ["uuid"; "urn"] id d.
Proof.
  unfold Datasets.matches70, names_by. rewrite !orb_true_iff. split.
  - intros [E | E]; eexists; (split; [| exact E]);
      apply list_elem_of_In; simpl; auto.
  - intros (k & Hk & E). apply list_elem_of_In in Hk. simpl in Hk.
    destruct Hk as [<- | [<- | []]]; auto.
Qed.

Lemma elem_of_filter_bool (f : obj -> bool) (l : list obj) (x : obj) :
  x ∈ List.filter f l <-> x ∈ l /\ f x = true.
Proof.
  rewrite !list_elem_of_In. apply filter_In.
Qed.

Lemma filter_bool_nil (f : obj -> bool) (l : list obj) :
  (forall x, x ∈ l -> f x <> true) -> List.filter f l = [].
Proof.
  intros Hno. destruct (List.filter f l) as [| a t] eqn:E; [reflexivity |].
  assert (Ha : a ∈ List.filter f l) by (rewrite E; apply list_elem_of_here).
  apply elem_of_filter_bool in Ha as [Ha Hf]. by destruct (Hno a Ha).
Qed.

(** The legacy selection over the candidates that pass a test [f]: none of
    them, or the newest of them. *)
Lemma newest_of_filter `{SemverOrder} (f : obj -> bool) (req : request)
    (ds : list obj) :
  (forall q, q ∈ ds -> f q = true -> has_valid_version q) ->
  ((forall q, q ∈ ds -> f q <> true) ->
   (if negb (length (List.filter f ds) =? 0)%nat
    then selected ← reduce newest (List.filter f ds);
         Ok (set_dataset (JObj selected) req)
    else Ok req) = Ok req) /\
  ((exists q, q ∈ ds /\ f q = true) ->
   exists p,
     (if negb (length (List.filter f ds) =? 0)%nat
      then selected ← reduce newest (List.filter f ds);
           Ok (set_dataset (JObj selected) req)
      else Ok req) = Ok (set_dataset (JObj p) req) /\
     p ∈ ds /\ f p = true /\
     forall q, q ∈ ds -> f q = true -> version_gte p q = true).
Proof.
  intros Hvalid. split.
  - intros Hno. by rewrite (filter_bool_nil f ds Hno).
  - intros (q0 & Hq0 & Hf0).
    assert (Hne : List.filter f ds <> []).
    { intros E. assert (Hq : q0 ∈ List.filter f ds)
        by by apply elem_of_filter_bool.
      rewrite E in Hq. by apply not_elem_of_nil in Hq. }
    assert (Hall : Forall has_valid_version (List.filter f ds)).
    { apply Forall_forall. intros q Hq.
      apply elem_of_filter_bool in Hq as [Hq Hf]. by apply Hvalid. }
    destruct (reduce_newest _ Hne Hall) as (p & Hp & Hmem & Hmax).
    apply elem_of_filter_bool in Hmem as [Hmem Hfp].
    exists p. repeat split; try done.
    + rewrite Hp. by destruct (List.filter f ds).
    + intros q Hq Hf. apply Hmax. by apply elem_of_filter_bool.
Qed.

(** The modern scan stops at the first candidate that passes its test. *)
Lemma find_first (f : obj -> bool) (before after : list obj) (d : obj) :
  (forall c, c ∈ before -> f c <> true) -> f d = true ->
  List.find f (before ++ d :: after) = Some d.
Proof.
  induction before as [| b t IH]; intros Hno Hd; simpl.
  - by rewrite Hd.
  - destruct (f b) eqn:E.
    + by destruct (Hno b (list_elem_of_here _ _)).
    + apply IH; [| exact Hd]. intros c Hc. apply Hno.
      by apply list_elem_of_further.
Qed.

Lemma find_none (f : obj -> bool) (l : list obj) :
  (forall c, c ∈ l -> f c <> true) -> List.find f l = None.
Proof.
  induction l as [| b t IH]; intros Hno; simpl; [reflexivity |].
  destruct (f b) eqn:E.
  - by destruct (Hno b (list_elem_of_here _ _)).
  - apply IH. intros c Hc. apply Hno. by apply list_elem_of_further.
Qed.

(** C5: with an identifier in the parameters, the legacy function selects,
    among the candidates whose [uuid], [urn] or [name] is the identifier, one
    whose valid version is at least every other's (and selects nothing when
    there is none); the modern function selects the first candidate of the
    list whose [uuid] or [urn] is the identifier, whatever follows it in the
    list, and selects nothing when no [uuid] or [urn] is the identifier, a
    [name] that is the identifier notwithstanding. *)
Theorem curImg65_newest_curImg70_first `{SemverOrder} (req : request)
    (ds : list obj) :
  datasets req = Some ds ->
  (forall id, id = js_or (param req "dataset") (param req "image") ->
   truthy id = true ->
   (forall q, q ∈ ds -> names_by ["uuid"; "urn"; "name"] id q ->
              has_valid_version q) ->
   ((forall q, q ∈ ds -> ~ names_by ["uuid"; "urn"; "name"] id q) ->
    Datasets.curImg65 req = Ok req) /\
   ((exists q, q ∈ ds /\ names_by ["uuid"; "urn"; "name"] id q) ->
    exists p, Datasets.curImg65 req = Ok (set_dataset (JObj p) req) /\
              p ∈ ds /\ names_by ["uuid"; "urn"; "name"] id p /\
              forall q, q ∈ ds -> names_by ["uuid"; "urn"; "name"] id q ->
                        version_gte p q = true)) /\
  (forall id, id = js_or (param req "image") (param req "dataset") ->
   truthy id = true ->
   (forall (before : list obj) (d : obj) (after : list obj),
      ds = before ++ d :: after ->
      (forall c, c ∈ before -> ~ names_by ["uuid"; "urn"] id c) ->
      names_by ["uuid"; "urn"] id d ->
      Datasets.curImg70 req = Ok (set_dataset (JObj d) req)) /\
   ((forall c, c ∈ ds -> ~ names_by ["uuid"; "urn"] id c) ->
    Datasets.curImg70 req = Ok req)).
Proof.
  intros Hds. split.
  - intros id -> Hid Hvalid.
    destruct (newest_of_filter
                (Datasets.matches65 (js_or (param req "dataset") (param req "image")))
                req ds) as [Hnone Hsome].
    { intros q Hq Hm. apply Hvalid; [exact Hq | by apply matches65_names]. }
    unfold Datasets.curImg65. rewrite Hds, Hid. split.
    + intros Hno. apply Hnone. intros q Hq Hm.
      apply (Hno q Hq). by apply matches65_names.
    + intros (q & Hq & Hm).
      destruct Hsome as (p & Hp & Hmem & Hfp & Hmax).
      { exists q. split; [exact Hq | by apply matches65_names]. }
      exists p. repeat split; try done.
      * by apply matches65_names.
      * intros q' Hq' Hm'. apply Hmax; [exact Hq' | by apply matches65_names].
  - intros id -> Hid. unfold Datasets.curImg70. rewrite Hds, Hid. split.
    + intros before d after -> Hbefore Hd.
      rewrite (find_first _ before after d); [reflexivity | | by apply matches70_names].
      intros c Hc Hm. apply (Hbefore c Hc). by apply matches70_names.
    + intros Hno. rewrite find_none; [reflexivity |].
      intros c Hc Hm. apply (Hno c Hc). by apply matches70_names.
Qed.

Lemma curImg65_newest_curImg70_first_witness :
  (exists p,
     @Datasets.curImg65 NumericSemver.lib
       Sample.get_base
     = Ok (set_dataset (JObj p)
             Sample.get_base) /\
     @version_gte NumericSemver.lib p Sample.base_2 = true) /\
  Datasets.curImg70
    Sample.get_base
  = Ok (set_dataset (JObj Sample.base_1)
          Sample.get_base).
Proof.
  destruct (@curImg65_newest_curImg70_first NumericSemver.lib numeric_order
              Sample.get_base
              Sample.images eq_refl) as [legacy modern].
  split.
  - destruct (legacy (JStr "sdc:sdc:base") eq_refl eq_refl) as [_ newest_wins].
    { intros q Hq _. apply list_elem_of_In in Hq. simpl in Hq.
      destruct Hq as [<- | [<- | [<- | [<- | []]]]]; eexists; reflexivity. }
    destruct newest_wins as (p & Hp & _ & _ & Hmax).
    { exists Sample.base_2. split.
      - apply list_elem_of_In. simpl. auto.
      - exists "urn". split; [apply list_elem_of_In; simpl; auto | reflexivity]. }
    exists p. split; [exact Hp |]. apply Hmax.
    + apply list_elem_of_In. simpl. auto.
    + exists "urn". split; [apply list_elem_of_In; simpl; auto | reflexivity].
  - destruct (modern (JStr "sdc:sdc:base") eq_refl eq_refl) as [first_wins _].
    apply (first_wins [] Sample.base_1 [Sample.smartos_1; Sample.base_2; Sample.smartos_2]).
    + reflexivity.
    + intros c Hc. by apply not_elem_of_nil in Hc.
    + exists "urn". split; [apply list_elem_of_In; simpl; auto | reflexivity].
Defined.

(** The two functions on one candidate list and one identifier: the legacy
    one selects the newest [base], the modern one the first. *)
Example curImg_diverge :
  (dataset <$> @Datasets.curImg65 NumericSemver.lib
     Sample.get_base) = Ok (JObj Sample.base_2) /\
  (dataset <$> Datasets.curImg70
     Sample.get_base) = Ok (JObj Sample.base_1).
Proof. split; reflexivity. Qed.

(** ** The current image when no identifier is given *)

(** C10: with neither a [dataset] nor an [image] parameter, the modern
    function selects nothing; the legacy function selects, among the
    candidates named [smartos], one whose valid version is at least every
    other's, and selects nothing when no candidate is named [smartos]. *)
Theorem curImg_without_identifier `{SemverOrder} (req : request)
    (ds : list obj) :
  params req !! "dataset" = None ->
  params req !! "image" = None ->
  Datasets.curImg70 req = Ok req /\
  (datasets req = Some ds ->
   (forall q, q ∈ ds -> get q "name" = JStr "smartos" ->
              has_valid_version q) ->
   ((forall q, q ∈ ds -> get q "name" <> JStr "smartos") ->
    Datasets.curImg65 req = Ok req) /\
   ((exists q, q ∈ ds /\ get q "name" = JStr "smartos") ->
    exists p, Datasets.curImg65 req = Ok (set_dataset (JObj p) req) /\
              p ∈ ds /\ get p "name" = JStr "smartos" /\
              forall q, q ∈ ds -> get q "name" = JStr "smartos" ->
                        version_gte p q = true)).
Proof.
  intros Hdataset Himage.
  assert (Hd : param req "dataset" = JUndefined)
    by (unfold param, get; by rewrite Hdataset).
  assert (Hi : param req "image" = JUndefined)
    by (unfold param, get; by rewrite Himage).
  split.
  - unfold Datasets.curImg70. by rewrite Hd, Hi.
  - intros Hds Hvalid.
    destruct (newest_of_filter Datasets.is_smartos req ds) as [Hnone Hsome].
    { intros q Hq Hm. apply Hvalid; [exact Hq | by apply strict_eq_str]. }
    unfold Datasets.curImg65. rewrite Hds, Hd, Hi. simpl. split.
    + intros Hno. apply Hnone. intros q Hq Hm.
      apply (Hno q Hq). by apply strict_eq_str.
    + intros (q & Hq & Hm).
      destruct Hsome as (p & Hp & Hmem & Hfp & Hmax).
      { exists q. split; [exact Hq | by apply strict_eq_str]. }
      exists p. repeat split; try done.
      * by apply strict_eq_str.
      * intros q' Hq' Hm'. apply Hmax; [exact Hq' | by apply strict_eq_str].
Qed.

Lemma curImg_without_identifier_witness :
  Datasets.curImg70 Sample.list_machines
  = Ok Sample.list_machines /\
  exists p,
    @Datasets.curImg65 NumericSemver.lib
      Sample.list_machines
    = Ok (set_dataset (JObj p) Sample.list_machines) /\
    get p "name" = JStr "smartos" /\
    @version_gte NumericSemver.lib p Sample.smartos_2 = true.
Proof.
  destruct (@curImg_without_identifier NumericSemver.lib numeric_order
              Sample.list_machines Sample.images
              eq_refl eq_refl) as [modern legacy].
  split; [exact modern |].
  destruct (legacy eq_refl) as [_ newest_wins].
  { intros q Hq _. apply list_elem_of_In in Hq. simpl in Hq.
    destruct Hq as [<- | [<- | [<- | [<- | []]]]]; eexists; reflexivity. }
  destruct newest_wins as (p & Hp & _ & Hname & Hmax).
  { exists Sample.smartos_2. split; [| reflexivity].
    apply list_elem_of_In. simpl. auto. }
  exists p. split; [exact Hp | split; [exact Hname |]].
  apply Hmax; [| reflexivity]. apply list_elem_of_In. simpl. auto.
Defined.

(** With no identifier the legacy function selects the newest [smartos]. *)
Example curImg65_smartos :
  (dataset <$> @Datasets.curImg65 NumericSemver.lib
     Sample.list_machines) = Ok (JObj Sample.smartos_2).
Proof. reflexivity. Qed.

(** ** The selection and the candidate list *)

Ltac case_step :=
  match goal with
  | |- context [if ?c then _ else _] => destruct c eqn:?
  | |- context [match ?x with Failed _ => _ | Replied _ => _ end] =>
      destruct x eqn:?
  | |- context [match ?x with Ok _ => _ | Throw _ => _ end] =>
      destruct x eqn:?
  | |- context [match ?x with Some _ => _ | None => _ end] =>
      destruct x eqn:?
  end.

(** [select_newest] touches [req.pkg] only, and sets it to an element of the
    array it is given. *)
Lemma select_newest_selects `{Semver} (req : request) (l : list obj) :
  packages (Packages.select_newest req l).1 = packages req /\
  forall p, pkg (Packages.select_newest req l).1 = JObj p ->
            pkg req = JObj p \/ p ∈ l.
Proof.
  unfold Packages.select_newest.
  destruct (reduce newest l) as [p0 |] eqn:E; simpl.
  - split; [reflexivity |]. intros p [= <-]. right.
    by apply reduce_newest_elem.
  - split; [reflexivity |]. auto.
Qed.

Lemma loadPackages_selection `{Semver} (req : request) (l : list obj)
    (p : obj) :
  packages req = None ->
  packages (Packages.loadPackages req).1 = Some l ->
  pkg (Packages.loadPackages req).1 = JObj p -> p ∈ l.
Proof.
  intros Hfresh. unfold Packages.loadPackages.
  repeat (case_step; cbn [fst snd packages pkg set_pkg set_packages]);
    try congruence.
  - match goal with
    | |- context [@Packages.select_newest _ ?r ?c] =>
        pose proof (select_newest_selects r c) as [Hl Hp]
    end.
    cbn [packages pkg set_pkg set_packages] in Hl, Hp.
    rewrite Hfresh in Hl. congruence.
  - match goal with
    | |- context [@Packages.select_newest _ ?r ?c] =>
        pose proof (select_newest_selects r c) as [Hl Hp]
    end.
    cbn [packages pkg set_pkg set_packages] in Hl, Hp.
    rewrite Hl. intros [= <-] Hsel.
    destruct (Hp p Hsel) as [? | Hmem]; [congruence |].
    apply list_elem_of_In, filter_In in Hmem as [Hmem _].
    by apply list_elem_of_In.
Qed.

Lemma loadPackages_by_identifier `{Semver} (req : request) :
  truthy (param req "package") = true ->
  packages (Packages.loadPackages req).1 = packages req.
Proof.
  intros Hid. unfold Packages.loadPackages.
  case_step; [reflexivity |]. cbv zeta.
  case_step; [reflexivity |].
  change (param (set_pkg (JBool false) req)) with (param req). rewrite Hid.
  repeat (case_step; cbn [fst snd packages pkg set_pkg set_packages]);
    try reflexivity.
  match goal with
  | |- context [@Packages.select_newest _ ?r ?c] =>
      pose proof (select_newest_selects r c) as [Hl _]
  end.
  exact Hl.
Qed.

(** The two selection functions touch [req.dataset] only, and set it to a
    candidate. *)
Lemma curImg65_selects `{Semver} (req req' : request) :
  Datasets.curImg65 req = Ok req' ->
  datasets req' = datasets req /\
  forall d, dataset req' = JObj d ->
            dataset req = JObj d \/
            exists ds, datasets req = Some ds /\ d ∈ ds.
Proof.
  unfold Datasets.curImg65.
  destruct (datasets req) as [ds |] eqn:Hds; [| discriminate].
  set (candidates := if truthy _ then _ else _).
  assert (Hsub : forall d, d ∈ candidates -> d ∈ ds).
  { intros d. unfold candidates.
    destruct (truthy _); intros Hd;
      apply list_elem_of_In, filter_In in Hd as [Hd _];
      by apply list_elem_of_In. }
  destruct (negb _).
  - destruct (reduce newest candidates) as [p |] eqn:E; simpl; [| discriminate].
    intros [= <-]. split; [exact Hds |]. simpl. intros d [= <-]. right.
    exists ds. split; [reflexivity |]. by apply Hsub, reduce_newest_elem.
  - intros [= <-]. split; [exact Hds | auto].
Qed.

Lemma curImg70_selects (req req' : request) :
  Datasets.curImg70 req = Ok req' ->
  datasets req' = datasets req /\
  forall d, dataset req' = JObj d ->
            dataset req = JObj d \/
            exists ds, datasets req = Some ds /\ d ∈ ds.
Proof.
  unfold Datasets.curImg70.
  destruct (truthy _); [| intros [= <-]; auto].
  destruct (datasets req) as [ds |] eqn:Hds; [| discriminate].
  destruct (find _ ds) as [d0 |] eqn:E; intros [= <-].
  - split; [exact Hds |]. simpl. intros d [= <-]. right.
    exists ds. split; [reflexivity |].
    apply find_some in E as [E _]. by apply list_elem_of_In.
  - split; [exact Hds | auto].
Qed.

Lemma getImage_datasets (req : request) :
  datasets (Datasets.getImage req).1 = datasets req.
Proof.
  unfold Datasets.getImage. repeat case_step; reflexivity.
Qed.

Lemma load_selection `{Semver} (req : request) (l : list obj) (d : obj) :
  datasets req = None ->
  datasets (Datasets.load req).1 = Some l ->
  dataset (Datasets.load req).1 = JObj d -> d ∈ l.
Proof.
  intros Hfresh. unfold Datasets.load.
  case_step; [cbn [fst]; congruence |]. cbv zeta.
  case_step; [rewrite getImage_datasets; cbn [datasets set_dataset]; congruence |].
  case_step; [cbn [fst datasets set_dataset]; congruence |].
  case_step; [cbn [fst datasets set_dataset]; congruence |].
  case_step; [cbn [fst dataset set_dataset]; congruence |].
  case_step; [cbn [fst dataset set_dataset set_datasets]; congruence |].
  match goal with
  | |- context [if ?c then Datasets.curImg65 else Datasets.curImg70] =>
      set (loadCurFunc := if c then Datasets.curImg65 else Datasets.curImg70)
  end.
  assert (Hsel : forall r r', loadCurFunc r = Ok r' ->
            datasets r' = datasets r /\
            forall d, dataset r' = JObj d ->
                      dataset r = JObj d \/
                      exists ds, datasets r = Some ds /\ d ∈ ds).
  { intros r r'. unfold loadCurFunc.
    case_step; [apply curImg65_selects | apply curImg70_selects]. }
  destruct (loadCurFunc _) as [r' |] eqn:E;
    cbn [fst dataset datasets set_dataset set_datasets].
  - destruct (Hsel _ _ E) as [Hl Hd].
    cbn [dataset datasets set_dataset set_datasets] in Hl, Hd.
    rewrite Hl. intros [= <-] Hsel'.
    destruct (Hd d Hsel') as [? | (ds & [= <-] & Hmem)];
      [congruence | exact Hmem].
  - congruence.
Qed.

Lemma load_by_identifier `{Semver} (req : request) :
  truthy (js_or (param req "image") (param req "dataset")) = true ->
  test UUID_RE (js_or (param req "image") (param req "dataset")) = true ->
  datasets (Datasets.load req).1 = datasets req.
Proof.
  intros Hid Hre. unfold Datasets.load.
  case_step; [reflexivity |]. cbv zeta.
  change (param (set_dataset (JBool false) req)) with (param req).
  rewrite Hid, Hre. cbn [andb]. by rewrite getImage_datasets.
Qed.

(** C9: on a request that has no candidate list yet, whenever the preload
    leaves a candidate list ([req.packages], [req.datasets]), a selected
    entity ([req.pkg], [req.dataset]) is a member of it; and a lookup by
    identifier (a [package] parameter, a UUID-shaped image identifier)
    populates no candidate list. *)
Theorem selection_among_candidates `{Semver} (req : request) :
  (packages req = None ->
   forall l p, packages (Packages.loadPackages req).1 = Some l ->
               pkg (Packages.loadPackages req).1 = JObj p -> p ∈ l) /\
  (truthy (param req "package") = true ->
   packages (Packages.loadPackages req).1 = packages req) /\
  (datasets req = None ->
   forall l d, datasets (Datasets.load req).1 = Some l ->
               dataset (Datasets.load req).1 = JObj d -> d ∈ l) /\
  (truthy (js_or (param req "image") (param req "dataset")) = true ->
   test UUID_RE (js_or (param req "image") (param req "dataset")) = true ->
   datasets (Datasets.load req).1 = datasets req).
Proof.
  repeat split.
  - intros Hfresh l p. by apply loadPackages_selection.
  - apply loadPackages_by_identifier.
  - intros Hfresh l d. by apply load_selection.
  - apply load_by_identifier.
Qed.

Lemma selection_among_candidates_witness :
  Sample.default_small ∈ [Sample.small_1_0_0; Sample.default_small] /\
  packages (@Packages.loadPackages NumericSemver.lib Sample.get_small).1 = None /\
  Sample.smartos_2 ∈ Sample.images /\
  datasets (@Datasets.load NumericSemver.lib (Sample.get_image "active")).1 = None.
Proof.
  split; [| split; [| split]].
  - exact (proj1 (@selection_among_candidates NumericSemver.lib Sample.resize)
             eq_refl _ _ eq_refl eq_refl).
  - exact (proj1 (proj2 (@selection_among_candidates NumericSemver.lib
                           Sample.get_small)) eq_refl).
  - exact (proj1 (proj2 (proj2 (@selection_among_candidates NumericSemver.lib
                                  (Sample.list_datasets "~6.5"))))
             eq_refl _ _ eq_refl eq_refl).
  - exact (proj2 (proj2 (proj2 (@selection_among_candidates NumericSemver.lib
                                  (Sample.get_image "active"))))
             eq_refl eq_refl).
Defined.

(** ** Listing packages through the cache *)

Lemma canUseCache_falsy (req : request) :
  Packages.canUseCache req = true <->
  forall k, k ∈ narrowing_params -> truthy (param req k) = false.
Proof.
  unfold Packages.canUseCache, Packages.list_opts, Packages.narrowing,
    narrowing_params.
  cbn [fold_left].
  destruct (truthy (param req "name")) eqn:E1,
    (truthy (param req "memory")) eqn:E2,
    (truthy (param req "disk")) eqn:E3,
    (truthy (param req "swap")) eqn:E4,
    (truthy (param req "version")) eqn:E5,
    (truthy (param req "vcpus")) eqn:E6,
    (truthy (param req "group")) eqn:E7;
    (split;
     [ intros Hsize;
       first [ vm_compute in Hsize; discriminate
             | intros k Hk; apply list_elem_of_In in Hk; simpl in Hk;
               repeat (destruct Hk as [<- | Hk]; [assumption |]);
               destruct Hk ]
     | intros Hall;
       first [ reflexivity
             | exfalso;
               repeat match goal with
                 | E : truthy (param req ?k) = true |- _ =>
                     rewrite Hall in E
                       by (apply list_elem_of_In; simpl; tauto);
                     discriminate
                 end ] ]).
Qed.

(** With the cache off the table, [list] answers from the catalog and the
    store is as it was. *)
Lemma list_bypass (req : request) (c : SpecCache.store) :
  Packages.canUseCache req = false ->
  @Packages.list SpecCache.cache req c
  = @Packages.on_cache_reply SpecCache.cache req (None, None) c /\
  Packages.cache_after (@Packages.list SpecCache.cache req c) = c.
Proof.
  intros Hno.
  assert (E : @Packages.list SpecCache.cache req c
              = @Packages.on_cache_reply SpecCache.cache req (None, None) c).
  { unfold Packages.list. cbn [cache_get SpecCache.cache].
    unfold SpecCache.get. by rewrite Hno. }
  split; [exact E |]. rewrite E.
  unfold Packages.on_cache_reply, Packages.sendResult. rewrite Hno.
  by destruct (papi_list (sdc req) (Packages.backend_opts req)).
Qed.

(** With the cache on the table, the read reaches the store first. *)
Lemma list_reads (req : request) (c : SpecCache.store) :
  Packages.canUseCache req = true ->
  exists rest,
    SpecCache.ops (Packages.cache_after (@Packages.list SpecCache.cache req c))
    = SpecCache.ops c ++ SpecCache.Read (Packages.getCacheKey req) :: rest.
Proof.
  intros Hyes. unfold Packages.list. cbn [cache_get SpecCache.cache].
  unfold SpecCache.get. rewrite Hyes.
  destruct (SpecCache.fault c) as [e |] eqn:Hfault.
  - unfold Packages.on_cache_reply, Packages.sendResult. rewrite Hyes.
    destruct (papi_list (sdc req) (Packages.backend_opts req)); simpl.
    + by exists [].
    + eexists. by rewrite <- app_assoc.
  - destruct (SpecCache.entries c !! Packages.getCacheKey req) as [[ttl v] |];
      simpl.
    + by exists [].
    + unfold Packages.on_cache_reply, Packages.sendResult. rewrite Hyes.
      destruct (papi_list (sdc req) (Packages.backend_opts req)); simpl.
      * by exists [].
      * eexists. by rewrite <- app_assoc.
Qed.

(** A [name] parameter that is there but empty narrows nothing: the list is
    read from, and written to, the cache. *)
Lemma list_empty_name_uses_cache :
  params Sample.list_packages_empty_name !! "name" = Some (JStr "") /\
  SpecCache.ops
    (Packages.cache_after
       (@Packages.list SpecCache.cache Sample.list_packages_empty_name
          SpecCache.empty))
  = [ SpecCache.Read "packages_930896af-bf8c-48d4-885c-6573a94b1853";
      SpecCache.Write_ "packages_930896af-bf8c-48d4-885c-6573a94b1853" 60
        [Sample.small_1_0_0; Sample.small_1_1_0] ].
Proof. split; reflexivity. Qed.

(** C2, amended: the cache is used exactly when none of the parameters
    name, memory, disk, swap, version, vcpus and group has a truthy
    (non-empty) value. When one of them has, [list] neither reads nor writes
    the store and answers from the catalog; when none has, the read reaches
    the store; and no other parameter, nor a recognized one that is empty,
    changes this. *)
Theorem list_cache_eligibility (req : request) (c : SpecCache.store) :
  ((exists k, k ∈ narrowing_params /\ truthy (param req k) = true) ->
   Packages.cache_after (@Packages.list SpecCache.cache req c) = c /\
   @Packages.list SpecCache.cache req c
   = @Packages.on_cache_reply SpecCache.cache req (None, None) c) /\
  ((forall k, k ∈ narrowing_params -> truthy (param req k) = false) ->
   exists rest,
     SpecCache.ops (Packages.cache_after (@Packages.list SpecCache.cache req c))
     = SpecCache.ops c ++ SpecCache.Read (Packages.getCacheKey req) :: rest) /\
  (forall req' : request,
     (forall k, k ∈ narrowing_params ->
                truthy (param req' k) = truthy (param req k)) ->
     Packages.canUseCache req' = Packages.canUseCache req).
Proof.
  split; [| split].
  - intros (k & Hk & Htruthy).
    assert (Hno : Packages.canUseCache req = false).
    { destruct (Packages.canUseCache req) eqn:E; [| reflexivity].
      rewrite (proj1 (canUseCache_falsy req) E k Hk) in Htruthy.
      discriminate. }
    destruct (list_bypass req c Hno) as [Hlist Hcache]. by split.
  - intros Hall. apply list_reads. by apply canUseCache_falsy.
  - intros req' Hsame.
    destruct (Packages.canUseCache req) eqn:E.
    + apply canUseCache_falsy. intros k Hk. rewrite (Hsame k Hk).
      by apply (proj1 (canUseCache_falsy req) E).
    + destruct (Packages.canUseCache req') eqn:E'; [| reflexivity].
      rewrite <- E. symmetry. apply canUseCache_falsy. intros k Hk.
      rewrite <- (Hsame k Hk). by apply (proj1 (canUseCache_falsy req') E').
Qed.

Lemma list_cache_eligibility_witness :
  Packages.cache_after
    (@Packages.list SpecCache.cache Sample.list_packages_named SpecCache.empty)
  = SpecCache.empty /\
  exists rest,
    SpecCache.ops
      (Packages.cache_after
         (@Packages.list SpecCache.cache (Sample.list_packages "~7.0")
            SpecCache.empty))
    = SpecCache.Read "packages_930896af-bf8c-48d4-885c-6573a94b1853" :: rest.
Proof.
  split.
  - refine (proj1 (proj1 (list_cache_eligibility Sample.list_packages_named
                            SpecCache.empty) _)).
    exists "name". split; [| reflexivity].
    apply list_elem_of_In. simpl. auto.
  - refine (proj1 (proj2 (list_cache_eligibility (Sample.list_packages "~7.0")
                            SpecCache.empty)) _).
    intros k Hk. apply list_elem_of_In in Hk. simpl in Hk.
    repeat (destruct Hk as [<- | Hk]; [reflexivity |]). destruct Hk.
Defined.

(** C3: whatever the cache is, when its [get] answers with an error, [list]
    does what it does on a miss: it queries the catalog, and its outcome is
    the catalog's alone: the translated packages on success, the catalog's
    error on failure. The cache's error is dropped. *)
Theorem list_cache_error_is_miss `{Cache} (req : request)
    (c c' : cache_state) (e : error) (cached : option (list obj)) :
  cache_get req (Packages.getCacheKey req) (Packages.canUseCache req) c
  = ((Some e, cached), c') ->
  Packages.list req c = Packages.on_cache_reply req (None, None) c' /\
  Packages.papi_queries (Packages.list req c) = [Packages.backend_opts req] /\
  match papi_list (sdc req) (Packages.backend_opts req) with
  | Replied pkgs =>
      Packages.handed (Packages.list req c) = Next /\
      Packages.body (Packages.list req c)
      = Some (map (Packages.translate req) pkgs)
  | Failed err2 =>
      Packages.handed (Packages.list req c) = NextErr err2 /\
      Packages.body (Packages.list req c) = None
  end.
Proof.
  intros Hget. unfold Packages.list. rewrite Hget.
  unfold Packages.on_cache_reply.
  destruct (papi_list (sdc req) (Packages.backend_opts req)); by repeat split.
Qed.

Lemma list_cache_error_is_miss_witness :
  Packages.handed
    (@Packages.list SpecCache.cache (Sample.list_packages "~7.0")
       Sample.failing_store) = Next /\
  Packages.body
    (@Packages.list SpecCache.cache (Sample.list_packages "~7.0")
       Sample.failing_store)
  = Some (map (Packages.translate (Sample.list_packages "~7.0"))
            [Sample.small_1_0_0; Sample.small_1_1_0]).
Proof.
  exact (proj2 (proj2 (@list_cache_error_is_miss SpecCache.cache
                         (Sample.list_packages "~7.0") Sample.failing_store
                         _ _ _ eq_refl))).
Defined.

(** ** Listing datasets *)

(** [map_throw] returns exactly when every call returns, with the results in
    the order of the input. *)
Lemma map_throw_Forall2 {A B : Type} (f : A -> result B) (l : list A)
    (bs : list B) :
  map_throw f l = Ok bs <-> Forall2 (fun a b => f a = Ok b) l bs.
Proof.
  revert bs. induction l as [| a t IH]; intros bs; simpl.
  - split.
    + intros [= <-]. constructor.
    + intros Hall. by inversion Hall.
  - split.
    + destruct (f a) as [b |] eqn:Ea; simpl; [| discriminate].
      destruct (map_throw f t) as [bs' |] eqn:Et; simpl; [| discriminate].
      intros [= <-]. constructor; [exact Ea | by apply IH].
    + intros Hall. inversion Hall as [| a' b t' bs' Ea Ht]; subst.
      rewrite Ea. simpl. apply IH in Ht. by rewrite Ht.
Qed.

(** C7: when every candidate of the loaded list is translated, a request
    whose version names 6.5 is answered with the translations that have a
    [urn], in the order of the candidates, and a request of any other version
    with every translation, in the order of the candidates. *)
Theorem list_datasets_by_version `{Semver} (req : request)
    (ds translated : list obj) :
  datasets req = Some ds ->
  Forall2 (fun d t => Datasets.translate req d = Ok t) ds translated ->
  (contains "6.5" (getVersion req) = true ->
   Datasets.list req
   = (Some (List.filter (fun t => defined (get t "urn")) translated), Next)) /\
  (contains "6.5" (getVersion req) = false ->
   Datasets.list req = (Some translated, Next)).
Proof.
  intros Hds Hall. apply map_throw_Forall2 in Hall.
  unfold Datasets.list. rewrite Hds, Hall.
  split; intros ->; reflexivity.
Qed.

Lemma list_datasets_by_version_witness :
  @Datasets.list NumericSemver.lib (Sample.listing_datasets "~6.5")
  = (Some [<["default" := JBool false]> Sample.shown_base_1], Next) /\
  @Datasets.list NumericSemver.lib (Sample.listing_datasets "~7.0")
  = (Some [Sample.shown_base_1; Sample.shown_image], Next).
Proof.
  split.
  - refine (proj1 (@list_datasets_by_version NumericSemver.lib
                     (Sample.listing_datasets "~6.5")
                     [Sample.base_1; Sample.image "active"]
                     [<["default" := JBool false]> Sample.shown_base_1;
                      <["default" := JBool false]> Sample.shown_image]
                     eq_refl _) eq_refl).
    repeat constructor.
  - refine (proj2 (@list_datasets_by_version NumericSemver.lib
                     (Sample.listing_datasets "~7.0")
                     [Sample.base_1; Sample.image "active"]
                     [Sample.shown_base_1; Sample.shown_image]
                     eq_refl _) eq_refl).
    repeat constructor.
Defined.

(** ** The image translator *)

Lemma translate_unfold `{Semver} (req : request) (d : obj) :
  Datasets.translate req d
  = Datasets.copy_fields d (Datasets.fieldNames req) (translate_base req d).
Proof. reflexivity. Qed.

Lemma hasOwnProperty_get (d : obj) (k : string) :
  hasOwnProperty d k = false -> get d k = JUndefined.
Proof.
  unfold hasOwnProperty, get. by destruct (d !! k).
Qed.

(** A field other than [error] is copied as it is, when the image has it. *)
Lemma copy_field_plain (d o : obj) (field : string) :
  field <> "error" ->
  Datasets.copy_field d o field
  = Ok (if hasOwnProperty d field then <[field := get d field]> o else o).
Proof.
  intros Hne. unfold Datasets.copy_field.
  destruct (hasOwnProperty d field); simpl; [| reflexivity].
  apply String.eqb_neq in Hne. by rewrite Hne.
Qed.

(** A turn of the loop leaves every other key alone. *)
Lemma copy_field_other (d o o' : obj) (field k : string) :
  Datasets.copy_field d o field = Ok o' -> k <> field -> o' !! k = o !! k.
Proof.
  unfold Datasets.copy_field. intros Hcopy Hne.
  destruct (hasOwnProperty d field); simpl in Hcopy.
  - destruct (String.eqb_spec field "error") as [-> | _].
    + destruct (Datasets.errorObjFromImgapiImage d); simpl in Hcopy;
        [| discriminate].
      injection Hcopy as <-. by rewrite lookup_insert_ne.
    + injection Hcopy as <-. by rewrite lookup_insert_ne.
  - by injection Hcopy as <-.
Qed.

Lemma copy_fields_other (d : obj) (names : list string) (o o' : obj)
    (k : string) :
  Datasets.copy_fields d names o = Ok o' -> k ∉ names -> o' !! k = o !! k.
Proof.
  revert o. induction names as [| field rest IH]; intros o; simpl.
  - by intros [= <-].
  - destruct (Datasets.copy_field d o field) as [o1 |] eqn:E; simpl;
      [| discriminate].
    intros Hrest Hk. apply not_elem_of_cons in Hk as [Hne Hk].
    rewrite (IH o1 Hrest Hk). by apply (copy_field_other d o o1 field).
Qed.

(** A key of the loop other than [error] ends up with the image's value. *)
Lemma copy_fields_plain (d : obj) (names : list string) (o o' : obj)
    (k : string) :
  k <> "error" -> Datasets.copy_fields d names o = Ok o' -> k ∈ names ->
  o' !! k = if hasOwnProperty d k then Some (get d k) else o !! k.
Proof.
  intros Hne. revert o. induction names as [| field rest IH]; intros o; simpl.
  - intros _ Hk. by apply not_elem_of_nil in Hk.
  - destruct (Datasets.copy_field d o field) as [o1 |] eqn:E; simpl;
      [| discriminate].
    intros Hrest Hk.
    assert (Ho1 : o1 !! k = if decide (k = field)
                            then if hasOwnProperty d k
                                 then Some (get d k) else o !! k
                            else o !! k).
    { destruct (decide (k = field)) as [-> | Hkf].
      - rewrite copy_field_plain in E by exact Hne. injection E as <-.
        destruct (hasOwnProperty d field); [by rewrite lookup_insert_eq | done].
      - by apply (copy_field_other d o o1 field). }
    destruct (decide (k ∈ rest)) as [Hin | Hout].
    + rewrite (IH o1 Hrest Hin), Ho1.
      by destruct (hasOwnProperty d k), (decide (k = field)).
    + rewrite (copy_fields_other d rest o1 o' k Hrest Hout), Ho1.
      apply elem_of_cons in Hk as [-> | Hk]; [| contradiction].
      by rewrite decide_True.
Qed.

(** The [error] key of the result is the object's own, or a translated
    error. *)
Lemma copy_fields_error (d : obj) (names : list string) (o o' : obj)
    (v : jsval) :
  Datasets.copy_fields d names o = Ok o' -> o' !! "error" = Some v ->
  o !! "error" = Some v \/
  exists e, Datasets.errorObjFromImgapiImage d = Ok e /\ v = JObj e.
Proof.
  revert o. induction names as [| field rest IH]; intros o; simpl.
  - intros [= <-]. auto.
  - destruct (Datasets.copy_field d o field) as [o1 |] eqn:E; simpl;
      [| discriminate].
    intros Hrest Hv. destruct (IH o1 Hrest Hv) as [Ho1 | Hdone]; [| by right].
    destruct (decide (field = "error")) as [-> | Hne].
    + unfold Datasets.copy_field in E.
      destruct (hasOwnProperty d "error"); simpl in E.
      * destruct (Datasets.errorObjFromImgapiImage d) as [e |]; simpl in E;
          [| discriminate].
        injection E as <-. rewrite lookup_insert_eq in Ho1.
        injection Ho1 as <-. right. by exists e.
      * injection E as <-. by left.
    + left. by rewrite <- (copy_field_other d o o1 field "error" E).
Qed.

(** The loop returns when the error translator does, and throws what it
    throws when [error] is among the names and the image has the field. *)
Lemma copy_fields_returns (d : obj) (names : list string) (o : obj) :
  (hasOwnProperty d "error" = true ->
   exists e, Datasets.errorObjFromImgapiImage d = Ok e) ->
  exists o', Datasets.copy_fields d names o = Ok o'.
Proof.
  intros Herr. revert o. induction names as [| field rest IH]; intros o; simpl.
  - by exists o.
  - destruct (decide (field = "error")) as [-> | Hne].
    + unfold Datasets.copy_field.
      destruct (hasOwnProperty d "error") eqn:Hown; simpl.
      * destruct (Herr eq_refl) as [e ->]. simpl. apply IH.
      * apply IH.
    + rewrite copy_field_plain by exact Hne. simpl. apply IH.
Qed.

Lemma copy_fields_throws (d : obj) (names : list string) (o : obj)
    (err : error) :
  "error" ∈ names -> hasOwnProperty d "error" = true ->
  Datasets.errorObjFromImgapiImage d = Throw err ->
  Datasets.copy_fields d names o = Throw err.
Proof.
  intros Hin Hown Hthrow. revert o.
  induction names as [| field rest IH]; intros o; simpl.
  - by apply not_elem_of_nil in Hin.
  - destruct (decide (field = "error")) as [-> | Hne].
    + unfold Datasets.copy_field. rewrite Hown. simpl. by rewrite Hthrow.
    + rewrite copy_field_plain by exact Hne. simpl. apply IH.
      apply elem_of_cons in Hin as [Heq | Hin]; [congruence | exact Hin].
Qed.

(** The error translator returns on every error but [undefined] and
    [null], on which it throws. *)
Lemma errorObjFromImgapiImage_returns (image : obj) :
  get image "error" <> JUndefined -> get image "error" <> JNull ->
  exists e, Datasets.errorObjFromImgapiImage image = Ok e.
Proof.
  intros Hu Hn.
  assert (Hcode : prop_of (get image "error") "code"
                  = Ok (prop (get image "error") "code")).
  { destruct (get image "error"); try congruence; reflexivity. }
  unfold Datasets.errorObjFromImgapiImage. rewrite Hcode. simpl.
  rewrite !(copy_error_object image ∅ _ eq_refl Hu Hn).
  repeat case_step; eauto.
Qed.

Lemma errorObjFromImgapiImage_throws (image : obj) :
  get image "error" = JUndefined \/ get image "error" = JNull ->
  Datasets.errorObjFromImgapiImage image = Throw TypeError.
Proof.
  unfold Datasets.errorObjFromImgapiImage. by intros [-> | ->].
Qed.

(** The names of the loop. *)
Lemma fieldNames_cases `{Semver} (req : request) :
  Datasets.fieldNames req =
  if deprecated_endpoint_re (url req) then ["tags"]
  else if satisfies "7.1.0" (getVersion req) || truthy (Datasets.bleeding_edge req)
       then if satisfies "7.0.0" (getVersion req)
            then ["tags"; "homepage"; "published_at"; "owner"; "public";
                  "state"; "eula"; "acl"; "origin"; "error"]
            else ["tags"; "owner"; "homepage"; "published_at"; "public";
                  "state"; "eula"; "acl"; "origin"; "error"]
       else if satisfies "7.0.0" (getVersion req)
            then ["tags"; "homepage"; "published_at"]
            else ["tags"].
Proof.
  unfold Datasets.fieldNames.
  destruct (deprecated_endpoint_re (url req)); [reflexivity |].
  destruct (satisfies "7.1.0" (getVersion req) || truthy (Datasets.bleeding_edge req)),
    (satisfies "7.0.0" (getVersion req)); reflexivity.
Qed.

(** Each step writes its own keys only. *)
Lemma with_type_other (d o : obj) (k : string) :
  k <> "type" -> with_type d o !! k = o !! k.
Proof.
  intros Hk. unfold with_type.
  destruct (truthy (get d "type")); [by rewrite lookup_insert_ne | done].
Qed.

Lemma with_description_other (d o : obj) (k : string) :
  k <> "description" -> with_description d o !! k = o !! k.
Proof.
  intros Hk. unfold with_description.
  destruct (truthy (get d "description")); [by rewrite lookup_insert_ne | done].
Qed.

Lemma with_requirements_other (d o : obj) (k : string) :
  k <> "requirements" -> with_requirements d o !! k = o !! k.
Proof.
  intros Hk. unfold with_requirements.
  destruct (truthy (get d "requirements")); [by rewrite lookup_insert_ne | done].
Qed.

Lemma with_urn_other (req : request) (d o : obj) (k : string) :
  k <> "urn" -> with_urn req d o !! k = o !! k.
Proof.
  intros Hk. unfold with_urn.
  destruct (truthy (get d "urn") && deprecated_endpoint_re (url req));
    [by rewrite lookup_insert_ne | done].
Qed.

Lemma with_legacy_other `{Semver} (req : request) (d o : obj) (k : string) :
  k <> "default" -> k <> "created" -> with_legacy req d o !! k = o !! k.
Proof.
  intros Hd Hc. unfold with_legacy.
  destruct (negb (String.eqb (getVersion req) "*") &&
            satisfies "6.5.0" (getVersion req)); [| done].
  cbv zeta. destruct (truthy (get d "published_at"));
    by rewrite !lookup_insert_ne.
Qed.

Ltac through_steps :=
  repeat first
    [ rewrite with_legacy_other by discriminate
    | rewrite with_urn_other by discriminate
    | rewrite with_requirements_other by discriminate
    | rewrite with_description_other by discriminate
    | rewrite with_type_other by discriminate ].

(** What the object built first holds under each key. *)
Lemma translate_base_identity `{Semver} (req : request) (d : obj) :
  translate_base req d !! "id" = Some (get d "uuid") /\
  translate_base req d !! "name" = Some (get d "name") /\
  translate_base req d !! "version" = Some (get d "version") /\
  translate_base req d !! "os" = Some (get d "os").
Proof.
  unfold translate_base. repeat split; through_steps; reflexivity.
Qed.

Lemma translate_base_urn `{Semver} (req : request) (d : obj) :
  translate_base req d !! "urn"
  = if truthy (get d "urn") && deprecated_endpoint_re (url req)
    then Some (get d "urn") else None.
Proof.
  unfold translate_base. through_steps. unfold with_urn.
  destruct (truthy (get d "urn") && deprecated_endpoint_re (url req)).
  - by rewrite lookup_insert_eq.
  - through_steps. reflexivity.
Qed.

Lemma translate_base_type `{Semver} (req : request) (d : obj) :
  translate_base req d !! "type"
  = if truthy (get d "type")
    then Some (if strict_eq (get d "type") (JStr "zvol")
               then JStr "virtualmachine" else JStr "smartmachine")
    else None.
Proof.
  unfold translate_base. through_steps. unfold with_type.
  destruct (truthy (get d "type")).
  - by rewrite lookup_insert_eq.
  - reflexivity.
Qed.

Lemma translate_base_legacy `{Semver} (req : request) (d : obj) :
  translate_base req d !! "default"
  = (if negb (String.eqb (getVersion req) "*") &&
        satisfies "6.5.0" (getVersion req)
     then Some (js_and (dataset req)
                  (JBool (strict_eq (prop (dataset req) "uuid")
                                    (get d "uuid"))))
     else None) /\
  translate_base req d !! "created"
  = (if negb (String.eqb (getVersion req) "*") &&
        satisfies "6.5.0" (getVersion req) &&
        truthy (get d "published_at")
     then Some (get d "published_at") else None).
Proof.
  unfold translate_base, with_legacy.
  destruct (negb (String.eqb (getVersion req) "*") &&
            satisfies "6.5.0" (getVersion req)); cbn [andb]; cbv zeta.
  - destruct (truthy (get d "published_at")); split.
    + rewrite lookup_insert_ne by discriminate. by rewrite lookup_insert_eq.
    + by rewrite lookup_insert_eq.
    + by rewrite lookup_insert_eq.
    + rewrite lookup_insert_ne by discriminate. through_steps. reflexivity.
  - split; through_steps; reflexivity.
Qed.

(** The keys the object built first can have. *)
Lemma translate_base_keys `{Semver} (req : request) (d : obj) (k : string) :
  k ∉ ["id"; "name"; "version"; "os"; "requirements"; "type"; "description";
       "urn"; "default"; "created"] ->
  translate_base req d !! k = None.
Proof.
  intros Hk. rewrite !not_elem_of_cons in Hk.
  destruct Hk as (? & ? & ? & ? & ? & ? & ? & ? & ? & ? & _).
  unfold translate_base.
  rewrite with_legacy_other, with_urn_other, with_requirements_other,
    with_description_other, with_type_other by assumption.
  repeat (rewrite lookup_insert_ne by congruence).
  by rewrite lookup_singleton_ne.
Qed.

Lemma translate_lookup_base `{Semver} (req : request) (d t : obj)
    (k : string) :
  Datasets.translate req d = Ok t -> k ∉ Datasets.fieldNames req ->
  t !! k = translate_base req d !! k.
Proof.
  rewrite translate_unfold. apply copy_fields_other.
Qed.

Lemma fieldNames_gated `{Semver} (req : request) (k : string) :
  k ∈ Datasets.fieldNames req -> k ∈ "tags" :: fields_7_0 ++ fields_7_1.
Proof.
  rewrite fieldNames_cases. unfold fields_7_0, fields_7_1.
  repeat case_step; cbn [app]; rewrite !elem_of_cons; tauto.
Qed.

(** X1: whatever the version, the translated image carries the image's
    [uuid] as [id] and its [name], [version] and [os]; it carries the [urn]
    exactly when the image has a truthy one and the request is on the
    deprecated [/:account/datasets] endpoint. *)
Theorem translate_identity_and_urn `{Semver} (req : request) (d t : obj) :
  Datasets.translate req d = Ok t ->
  t !! "id" = Some (get d "uuid") /\
  t !! "name" = Some (get d "name") /\
  t !! "version" = Some (get d "version") /\
  t !! "os" = Some (get d "os") /\
  t !! "urn" = if truthy (get d "urn") && deprecated_endpoint_re (url req)
               then Some (get d "urn") else None.
Proof.
  intros Ht.
  assert (Hout : forall k, k ∉ "tags" :: fields_7_0 ++ fields_7_1 ->
                           t !! k = translate_base req d !! k).
  { intros k Hk. apply (translate_lookup_base req d t k Ht).
    intros Hin. by apply Hk, (fieldNames_gated req). }
  destruct (translate_base_identity req d) as (Hid & Hname & Hversion & Hos).
  rewrite <- Hid, <- Hname, <- Hversion, <- Hos, <- translate_base_urn.
  repeat split; apply Hout; unfold fields_7_0, fields_7_1; cbn [app];
    rewrite !not_elem_of_cons; repeat split; try discriminate;
    apply not_elem_of_nil.
Qed.

Lemma translate_identity_and_urn_witness :
  Sample.shown_base_1 !! "id"
  = Some (JStr "01b2c898-945f-11e1-a523-af1afbe22822") /\
  Sample.shown_base_1 !! "urn" = Some (JStr "sdc:sdc:base").
Proof.
  destruct (@translate_identity_and_urn NumericSemver.lib
              (Sample.listing_datasets "~7.0") Sample.base_1
              Sample.shown_base_1 eq_refl) as (Hid & _ & _ & _ & Hurn).
  exact (conj Hid Hurn).
Defined.

Lemma translate_lookup_gated `{Semver} (req : request) (d t : obj)
    (k : string) :
  Datasets.translate req d = Ok t -> k <> "error" ->
  k ∈ "tags" :: fields_7_0 ++ fields_7_1 ->
  t !! k = if bool_decide (k ∈ Datasets.fieldNames req) && hasOwnProperty d k
           then Some (get d k) else None.
Proof.
  intros Ht Hne Hk.
  assert (Hbase : translate_base req d !! k = None).
  { apply translate_base_keys. unfold fields_7_0, fields_7_1 in Hk.
    cbn [app] in Hk. rewrite !elem_of_cons in Hk. rewrite !not_elem_of_cons.
    repeat split; try apply not_elem_of_nil; intros ->;
      repeat (destruct Hk as [Hk | Hk]; [discriminate |]);
      by apply not_elem_of_nil in Hk. }
  destruct (bool_decide (k ∈ Datasets.fieldNames req)) eqn:E.
  - apply bool_decide_eq_true in E. rewrite translate_unfold in Ht.
    rewrite (copy_fields_plain d _ _ t k Hne Ht E), Hbase. cbn [andb].
    by destruct (hasOwnProperty d k).
  - apply bool_decide_eq_false in E.
    by rewrite (translate_lookup_base req d t k Ht E), Hbase.
Qed.

Lemma fieldNames_has_7_0 `{Semver} (req : request) (k : string) :
  k ∈ fields_7_0 ->
  bool_decide (k ∈ Datasets.fieldNames req)
  = negb (deprecated_endpoint_re (url req)) &&
    (satisfies "7.0.0" (getVersion req) ||
     satisfies "7.1.0" (getVersion req) ||
     truthy (Datasets.bleeding_edge req)).
Proof.
  intros Hk. rewrite fieldNames_cases.
  unfold fields_7_0 in Hk. rewrite !elem_of_cons in Hk.
  destruct (deprecated_endpoint_re (url req)),
    (satisfies "7.0.0" (getVersion req)),
    (satisfies "7.1.0" (getVersion req)),
    (truthy (Datasets.bleeding_edge req));
    destruct Hk as [-> | [-> | Hk]];
    try (by apply not_elem_of_nil in Hk); reflexivity.
Qed.

Lemma fieldNames_has_7_1 `{Semver} (req : request) (k : string) :
  k ∈ fields_7_1 ->
  bool_decide (k ∈ Datasets.fieldNames req)
  = negb (deprecated_endpoint_re (url req)) &&
    (satisfies "7.1.0" (getVersion req) ||
     truthy (Datasets.bleeding_edge req)).
Proof.
  intros Hk. rewrite fieldNames_cases.
  unfold fields_7_1 in Hk. rewrite !elem_of_cons in Hk.
  destruct (deprecated_endpoint_re (url req)),
    (satisfies "7.0.0" (getVersion req)),
    (satisfies "7.1.0" (getVersion req)),
    (truthy (Datasets.bleeding_edge req));
    repeat (destruct Hk as [-> | Hk]; [reflexivity |]);
    by apply not_elem_of_nil in Hk.
Qed.

Lemma fieldNames_has_tags `{Semver} (req : request) :
  bool_decide ("tags" ∈ Datasets.fieldNames req) = true.
Proof.
  rewrite fieldNames_cases.
  destruct (deprecated_endpoint_re (url req)),
    (satisfies "7.0.0" (getVersion req)),
    (satisfies "7.1.0" (getVersion req)),
    (truthy (Datasets.bleeding_edge req)); reflexivity.
Qed.

(** X2: which fields of the image a version shows. [tags] is shown whenever
    the image has it. Off the deprecated endpoint, [homepage] and
    [published_at] are shown to a version that satisfies 7.0.0 or 7.1.0 and
    to a whitelisted bleeding-edge login, and [owner], [public], [state],
    [eula], [acl] and [origin] to a version that satisfies 7.1.0 and to a
    whitelisted bleeding-edge login; each only when the image has the
    property. On the deprecated endpoint none of them is shown. *)
Theorem translate_gated_fields `{Semver} (req : request) (d t : obj) :
  Datasets.translate req d = Ok t ->
  t !! "tags" = (if hasOwnProperty d "tags"
                 then Some (get d "tags") else None) /\
  (forall k, k ∈ fields_7_0 ->
     t !! k = if negb (deprecated_endpoint_re (url req)) &&
                 (satisfies "7.0.0" (getVersion req) ||
                  satisfies "7.1.0" (getVersion req) ||
                  truthy (Datasets.bleeding_edge req)) &&
                 hasOwnProperty d k
              then Some (get d k) else None) /\
  (forall k, k ∈ fields_7_1 -> k <> "error" ->
     t !! k = if negb (deprecated_endpoint_re (url req)) &&
                 (satisfies "7.1.0" (getVersion req) ||
                  truthy (Datasets.bleeding_edge req)) &&
                 hasOwnProperty d k
              then Some (get d k) else None).
Proof.
  intros Ht. split; [| split].
  - rewrite (translate_lookup_gated req d t "tags" Ht) by
      (try discriminate; apply list_elem_of_here).
    by rewrite fieldNames_has_tags.
  - intros k Hk.
    rewrite (translate_lookup_gated req d t k Ht).
    + by rewrite fieldNames_has_7_0.
    + unfold fields_7_0 in Hk. rewrite !elem_of_cons in Hk.
      destruct Hk as [-> | [-> | Hk]]; [| | by apply not_elem_of_nil in Hk];
        discriminate.
    + apply elem_of_cons. right. apply elem_of_app. by left.
  - intros k Hk Hne.
    rewrite (translate_lookup_gated req d t k Ht Hne).
    + by rewrite fieldNames_has_7_1.
    + apply elem_of_cons. right. apply elem_of_app. by right.
Qed.

Lemma translate_gated_fields_witness :
  Sample.shown_failed_7_0 !! "homepage"
  = Some (JStr "https://example.com/base") /\
  Sample.shown_failed_7_0 !! "owner" = None.
Proof.
  destruct (@translate_gated_fields NumericSemver.lib
              (Sample.list_images "~7.0") Sample.failed_image
              Sample.shown_failed_7_0 eq_refl) as (_ & H70 & H71).
  split.
  - refine (H70 "homepage" _). apply list_elem_of_here.
  - refine (H71 "owner" _ _); [apply list_elem_of_here | discriminate].
Defined.

(** X3: the two fields of version 6.5, [default] and [created], are shown
    exactly when a version is declared (not [*]) and 6.5.0 satisfies it:
    [default] tells whether the image is the selected one, [created] is the
    image's truthy [published_at]. *)
Theorem translate_legacy_fields `{Semver} (req : request) (d t : obj) :
  Datasets.translate req d = Ok t ->
  t !! "default"
  = (if negb (String.eqb (getVersion req) "*") &&
        satisfies "6.5.0" (getVersion req)
     then Some (js_and (dataset req)
                  (JBool (strict_eq (prop (dataset req) "uuid")
                                    (get d "uuid"))))
     else None) /\
  t !! "created"
  = (if negb (String.eqb (getVersion req) "*") &&
        satisfies "6.5.0" (getVersion req) &&
        truthy (get d "published_at")
     then Some (get d "published_at") else None).
Proof.
  intros Ht.
  destruct (translate_base_legacy req d) as [Hdefault Hcreated].
  rewrite <- Hdefault, <- Hcreated.
  split; apply (translate_lookup_base req d t _ Ht); intros Hin;
    apply fieldNames_gated in Hin; unfold fields_7_0, fields_7_1 in Hin;
    cbn [app] in Hin; rewrite !elem_of_cons in Hin;
    repeat (destruct Hin as [Hin | Hin]; [discriminate |]);
    by apply not_elem_of_nil in Hin.
Qed.

Lemma translate_legacy_fields_witness :
  (<["default" := JBool false]> Sample.shown_base_1) !! "default"
  = Some (JBool false) /\
  Sample.shown_base_1 !! "default" = None.
Proof.
  split.
  - exact (proj1 (@translate_legacy_fields NumericSemver.lib
                    (Sample.listing_datasets "~6.5") Sample.base_1
                    (<["default" := JBool false]> Sample.shown_base_1)
                    eq_refl)).
  - exact (proj1 (@translate_legacy_fields NumericSemver.lib
                    (Sample.listing_datasets "~7.0") Sample.base_1
                    Sample.shown_base_1 eq_refl)).
Defined.

Lemma error_gated `{Semver} (req : request) :
  bool_decide ("error" ∈ Datasets.fieldNames req)
  = negb (deprecated_endpoint_re (url req)) &&
    (satisfies "7.1.0" (getVersion req) ||
     truthy (Datasets.bleeding_edge req)).
Proof.
  apply fieldNames_has_7_1. unfold fields_7_1.
  rewrite !elem_of_cons. tauto.
Qed.

(** X4: [translate] throws exactly when the [error] field is shown to the
    request (off the deprecated endpoint, to a version that satisfies 7.1.0
    or to a whitelisted bleeding-edge login) and the image has an [error]
    property that is [undefined] or [null]; what it throws is a TypeError.
    In every other case it returns. *)
Theorem translate_throws_iff `{Semver} (req : request) (d : obj) :
  ((exists e, Datasets.translate req d = Throw e) <->
   negb (deprecated_endpoint_re (url req)) &&
   (satisfies "7.1.0" (getVersion req) ||
    truthy (Datasets.bleeding_edge req)) = true /\
   (d !! "error" = Some JUndefined \/ d !! "error" = Some JNull)) /\
  (forall e, Datasets.translate req d = Throw e -> e = TypeError).
Proof.
  rewrite <- error_gated, translate_unfold.
  assert (Hnull : (d !! "error" = Some JUndefined \/ d !! "error" = Some JNull)
                  -> hasOwnProperty d "error" = true /\
                     Datasets.errorObjFromImgapiImage d = Throw TypeError).
  { intros Hd. split.
    - unfold hasOwnProperty. by destruct Hd as [-> | ->].
    - apply errorObjFromImgapiImage_throws. unfold get.
      destruct Hd as [-> | ->]; auto. }
  assert (Hdec : (d !! "error" = Some JUndefined \/ d !! "error" = Some JNull)
                 \/ (hasOwnProperty d "error" = true ->
                     exists e, Datasets.errorObjFromImgapiImage d = Ok e)).
  { unfold hasOwnProperty.
    destruct (d !! "error") as [[] |] eqn:E; auto; right;
      try discriminate; intros _;
      apply errorObjFromImgapiImage_returns; unfold get; rewrite E;
      discriminate. }
  destruct (bool_decide ("error" ∈ Datasets.fieldNames req)) eqn:Hgate.
  - apply bool_decide_eq_true in Hgate.
    destruct Hdec as [Hd | Hok].
    + destruct (Hnull Hd) as [Hown Hthrow].
      rewrite (copy_fields_throws d _ _ TypeError Hgate Hown Hthrow).
      split; [| by intros e [= <-]]. split; [auto | eauto].
    + destruct (copy_fields_returns d (Datasets.fieldNames req)
                  (translate_base req d) Hok) as [t ->].
      split; [| discriminate]. split; [by intros [e ?] |].
      intros [_ Hd]. destruct (Hnull Hd) as [Hown Hthrow].
      destruct (Hok Hown) as [e He]. congruence.
  - apply bool_decide_eq_false in Hgate.
    assert (Hret : exists t, Datasets.copy_fields d (Datasets.fieldNames req)
                               (translate_base req d) = Ok t).
    { generalize (translate_base req d).
      induction (Datasets.fieldNames req) as [| field rest IH]; intros o.
      - by exists o.
      - apply not_elem_of_cons in Hgate as [Hne Hrest]. simpl.
        rewrite copy_field_plain by congruence. simpl. by apply IH. }
    destruct Hret as [t ->].
    split; [| discriminate]. split; [by intros [e ?] | by intros [? _]].
Qed.

(** The image with a [null] error is translated for a client of version
    ~7.0 and makes [translate] throw for one of version ~7.1. *)
Example translate_null_error :
  (exists t, @Datasets.translate NumericSemver.lib (Sample.list_images "~7.0")
               Sample.null_error_image = Ok t) /\
  @Datasets.translate NumericSemver.lib (Sample.list_images "~7.1")
    Sample.null_error_image = Throw TypeError.
Proof. split; [eexists |]; reflexivity. Qed.

(** X5: when the translated image has an [error], it is the object the error
    translator made of the image, never the image's own error. *)
Theorem translate_error_is_translated `{Semver} (req : request) (d t : obj)
    (v : jsval) :
  Datasets.translate req d = Ok t -> t !! "error" = Some v ->
  exists e, Datasets.errorObjFromImgapiImage d = Ok e /\ v = JObj e.
Proof.
  rewrite translate_unfold. intros Ht Hv.
  destruct (copy_fields_error d _ _ t v Ht Hv) as [Hbase | Hdone];
    [| exact Hdone].
  rewrite translate_base_keys in Hbase; [discriminate |].
  rewrite !not_elem_of_cons. repeat split; try discriminate.
  apply not_elem_of_nil.
Qed.

Lemma translate_error_is_translated_witness :
  exists e, Datasets.errorObjFromImgapiImage Sample.failed_image = Ok e /\
            JObj {[ "code" := JStr "InternalError";
                    "message" := JStr "an unexpected error occurred (Contact support for assistance.)" ]}
            = JObj e.
Proof.
  exact (@translate_error_is_translated NumericSemver.lib
           (Sample.list_images "~7.1") Sample.failed_image
           Sample.shown_failed_7_1 _ eq_refl eq_refl).
Defined.

(** X6: the [type] filter of a listing and the [type] a client is shown are
    inverse on the two public names: an image whose type is what the filter
    [smartmachine] (or [virtualmachine]) asks the catalog for is shown as
    [smartmachine] (or [virtualmachine]). *)
Theorem translate_type_round_trip `{Semver} (req : request) (d t : obj)
    (name : string) :
  name ∈ ["smartmachine"; "virtualmachine"] ->
  get d "type" = Datasets.image_type (JStr name) ->
  Datasets.translate req d = Ok t ->
  t !! "type" = Some (JStr name).
Proof.
  intros Hname Htype Ht.
  rewrite (translate_lookup_base req d t "type" Ht).
  - rewrite translate_base_type, Htype.
    rewrite !elem_of_cons in Hname.
    destruct Hname as [-> | [-> | Hname]]; [reflexivity | reflexivity |].
    by apply not_elem_of_nil in Hname.
  - intros Hin. apply fieldNames_gated in Hin.
    unfold fields_7_0, fields_7_1 in Hin. cbn [app] in Hin.
    rewrite !elem_of_cons in Hin.
    repeat (destruct Hin as [Hin | Hin]; [discriminate |]).
    by apply not_elem_of_nil in Hin.
Qed.

Lemma translate_type_round_trip_witness :
  Sample.shown_base_1 !! "type" = Some (JStr "smartmachine").
Proof.
  refine (@translate_type_round_trip NumericSemver.lib
            (Sample.listing_datasets "~7.0") Sample.base_1
            Sample.shown_base_1 "smartmachine" _ eq_refl eq_refl).
  apply list_elem_of_here.
Defined.

(** ** More on the newest-wins fold *)

Lemma version_gte_total `{SemverOrder} (p q : obj) :
  has_valid_version p -> has_valid_version q ->
  version_gte p q = false -> version_gte q p = true.
Proof.
  intros [vp Hp] [vq Hq]. unfold version_gte. rewrite Hp, Hq.
  destruct (gte_total vp vq); congruence.
Qed.

Lemma newest_by_version `{Semver} (a b : obj) :
  has_valid_version a -> has_valid_version b ->
  newest a b = Ok (if version_gte a b then a else b).
Proof.
  intros [va Ha] [vb Hb]. unfold newest, version_gte. by rewrite Ha, Hb.
Qed.

(** The fold returns its accumulator when nothing beats it, and otherwise
    the first element that beats the accumulator and everything before
    it. *)
Lemma reduce_from_first `{SemverOrder} (l : list obj) (acc p : obj) :
  has_valid_version acc -> Forall has_valid_version l ->
  reduce_from newest acc l = Ok p ->
  (p = acc /\ forall q, q ∈ l -> version_gte acc q = true) \/
  (exists before after,
     l = before ++ p :: after /\ version_gte acc p = false /\
     forall q, q ∈ before -> version_gte q p = false).
Proof.
  revert acc. induction l as [| b t IH]; intros acc Hacc Hl; simpl.
  - intros [= <-]. left. split; [reflexivity |].
    intros q Hq. by apply not_elem_of_nil in Hq.
  - apply Forall_cons in Hl as [Hb Ht].
    rewrite (newest_by_version acc b Hacc Hb). simpl.
    destruct (version_gte acc b) eqn:Hab; intros Hp.
    + destruct (IH acc Hacc Ht Hp)
        as [[-> Hall] | (before & after & -> & Hlt & Hbefore)].
      * left. split; [reflexivity |]. intros q Hq.
        apply elem_of_cons in Hq as [-> | Hq]; [exact Hab | by apply Hall].
      * right. exists (b :: before), after.
        split; [reflexivity | split; [exact Hlt |]].
        intros q Hq. apply elem_of_cons in Hq as [-> | Hq]; [| by apply Hbefore].
        destruct (version_gte b p) eqn:Hbp; [| reflexivity].
        by rewrite (version_gte_trans acc b p Hab Hbp) in Hlt.
    + destruct (IH b Hb Ht Hp)
        as [[-> Hall] | (before & after & -> & Hlt & Hbefore)].
      * right. exists [], t. split; [reflexivity | split; [exact Hab |]].
        intros q Hq. by apply not_elem_of_nil in Hq.
      * right. exists (b :: before), after.
        assert (Hp' : has_valid_version p).
        { apply (proj1 (Forall_forall _ _) Ht).
          apply elem_of_app. right. apply list_elem_of_here. }
        split; [reflexivity | split].
        -- destruct (version_gte acc p) eqn:Hap; [| reflexivity].
           pose proof (version_gte_total b p Hb Hp' Hlt) as Hpb.
           by rewrite (version_gte_trans acc p b Hap Hpb) in Hab.
        -- intros q Hq.
           apply elem_of_cons in Hq as [-> | Hq]; [exact Hlt | by apply Hbefore].
Qed.

(** X7: ties go to the earlier element. Of an array of valid versions the
    fold returns the first element that no other beats: everything before
    it in the array has a strictly smaller version, and nothing after it has
    a greater one. *)
Theorem reduce_newest_first `{SemverOrder} (l : list obj) (p : obj) :
  Forall has_valid_version l ->
  reduce newest l = Ok p ->
  exists before after,
    l = before ++ p :: after /\
    (forall q, q ∈ before -> version_gte q p = false) /\
    (forall q, q ∈ after -> version_gte p q = true).
Proof.
  destruct l as [| a t]; [discriminate |]. intros Hl Hp.
  pose proof Hl as Hl'. apply Forall_cons in Hl' as [Ha Ht].
  destruct (reduce_newest (a :: t) ltac:(discriminate) Hl)
    as (p' & Hp'' & _ & Hmax).
  rewrite Hp in Hp''. injection Hp'' as <-.
  simpl in Hp.
  destruct (reduce_from_first t a p Ha Ht Hp)
    as [[-> Hall] | (before & after & -> & Hlt & Hbefore)].
  - exists [], t. split; [reflexivity | split].
    + intros q Hq. by apply not_elem_of_nil in Hq.
    + exact Hall.
  - exists (a :: before), after. split; [reflexivity | split].
    + intros q Hq.
      apply elem_of_cons in Hq as [-> | Hq]; [exact Hlt | by apply Hbefore].
    + intros q Hq. apply Hmax. apply list_elem_of_further.
      apply elem_of_app. right. by apply list_elem_of_further.
Qed.

Lemma reduce_newest_first_witness :
  exists before after,
    [Sample.small_1_0_0; Sample.small_1_1_0; Sample.default_small]
    = before ++ Sample.small_1_1_0 :: after /\
    (forall q, q ∈ before ->
               @version_gte NumericSemver.lib q Sample.small_1_1_0 = false) /\
    (forall q, q ∈ after ->
               @version_gte NumericSemver.lib Sample.small_1_1_0 q = true).
Proof.
  refine (@reduce_newest_first NumericSemver.lib numeric_order
            [Sample.small_1_0_0; Sample.small_1_1_0; Sample.default_small]
            Sample.small_1_1_0 _ eq_refl).
  repeat constructor; eexists; reflexivity.
Defined.

(** ** More on resolving packages *)

(** X8: a by-name search that answers one package selects it without
    comparing versions, so whatever its version is. *)
Theorem loadPackages_single_answer `{Semver} (req : request) (p : obj) :
  url req <> "/--ping" ->
  ends_with "/packages" (pathname (url req)) = false ->
  truthy (param req "package") = true ->
  test UUID_RE (param req "package") = false ->
  papi_list (sdc req) (Packages.by_name_filter req) = Replied [p] ->
  Packages.loadPackages req = (set_pkg (JObj p) req, Next).
Proof.
  intros Hping Hpath Hname Hre Hlist.
  unfold Packages.loadPackages.
  apply String.eqb_neq in Hping. rewrite Hping. cbv zeta.
  change (url (set_pkg (JBool false) req)) with (url req).
  change (param (set_pkg (JBool false) req)) with (param req).
  change (sdc (set_pkg (JBool false) req)) with (sdc req).
  change (Packages.by_name_filter (set_pkg (JBool false) req))
    with (Packages.by_name_filter req).
  by rewrite Hpath, Hname, Hre, Hlist.
Qed.

Lemma loadPackages_single_answer_witness :
  @js_valid NumericSemver.lib (get Sample.nightly "version") = None /\
  @Packages.loadPackages NumericSemver.lib Sample.get_nightly
  = (set_pkg (JObj Sample.nightly) Sample.get_nightly, Next).
Proof.
  split; [reflexivity |].
  exact (@loadPackages_single_answer NumericSemver.lib Sample.get_nightly
           Sample.nightly ltac:(discriminate) eq_refl eq_refl eq_refl eq_refl).
Defined.

(** X9: a POST with [action=resize] and no [package] parameter loads the
    tenant's active packages as [req.packages] and selects, among those
    flagged [default], one whose version is at least every other's; when
    none is flagged, nothing is selected. *)
Theorem loadPackages_resize_default `{SemverOrder} (req : request)
    (pkgs : list obj) :
  url req <> "/--ping" ->
  ends_with "/packages" (pathname (url req)) = false ->
  ends_with "/machines" (pathname (url req)) = false ->
  truthy (param req "package") = false ->
  toLowerCase (method req) = "post" ->
  param req "action" = JStr "resize" ->
  papi_list (sdc req) (Packages.owned_active_filter req) = Replied pkgs ->
  (forall q, q ∈ pkgs -> get q "default" = JBool true ->
             has_valid_version q) ->
  ((forall q, q ∈ pkgs -> get q "default" <> JBool true) ->
   Packages.loadPackages req
   = (set_packages pkgs (set_pkg (JBool false) req), Next)) /\
  ((exists q, q ∈ pkgs /\ get q "default" = JBool true) ->
   exists p,
     Packages.loadPackages req
     = (set_packages pkgs (set_pkg (JObj p) req), Next) /\
     p ∈ pkgs /\ get p "default" = JBool true /\
     forall q, q ∈ pkgs -> get q "default" = JBool true ->
               version_gte p q = true).
Proof.
  intros Hping Hpath Hmachines Hname Hmethod Haction Hlist Hvalid.
  set (is_default := fun p : obj => strict_eq (get p "default") (JBool true)).
  assert (Hdef : forall q, is_default q = true <-> get q "default" = JBool true).
  { intros q. unfold is_default.
    destruct (get q "default") as [| | [] | | |]; simpl; split;
      try discriminate; reflexivity. }
  assert (E : Packages.loadPackages req
              = if negb (length (List.filter is_default pkgs) =? 0)%nat
                then Packages.select_newest
                       (set_packages pkgs (set_pkg (JBool false) req))
                       (List.filter is_default pkgs)
                else (set_packages pkgs (set_pkg (JBool false) req), Next)).
  { unfold Packages.loadPackages.
    apply String.eqb_neq in Hping. rewrite Hping. cbv zeta.
    change (url (set_pkg (JBool false) req)) with (url req).
    change (method (set_pkg (JBool false) req)) with (method req).
    change (param (set_pkg (JBool false) req)) with (param req).
    change (sdc (set_pkg (JBool false) req)) with (sdc req).
    change (Packages.owned_active_filter (set_pkg (JBool false) req))
      with (Packages.owned_active_filter req).
    rewrite Hpath, Hname, Hmachines, Hmethod, Haction, Hlist. reflexivity. }
  split.
  - intros Hno. rewrite E, (filter_bool_nil is_default pkgs); [reflexivity |].
    intros q Hq Hd. by apply (Hno q Hq), Hdef.
  - intros (q0 & Hq0 & Hd0).
    assert (Hne : List.filter is_default pkgs <> []).
    { intros Hnil.
      assert (Hq : q0 ∈ List.filter is_default pkgs)
        by (apply elem_of_filter_bool; split; [exact Hq0 | by apply Hdef]).
      rewrite Hnil in Hq. by apply not_elem_of_nil in Hq. }
    assert (Hall : Forall has_valid_version (List.filter is_default pkgs)).
    { apply Forall_forall. intros q Hq.
      apply elem_of_filter_bool in Hq as [Hq Hd]. by apply Hvalid, Hdef. }
    destruct (reduce_newest _ Hne Hall) as (p & Hp & Hmem & Hmax).
    apply elem_of_filter_bool in Hmem as [Hmem Hdp].
    exists p. split; [| split; [exact Hmem | split; [by apply Hdef |]]].
    + rewrite E. unfold Packages.select_newest. rewrite Hp.
      by destruct (List.filter is_default pkgs).
    + intros q Hq Hd. apply Hmax, elem_of_filter_bool.
      split; [exact Hq | by apply Hdef].
Qed.

Lemma loadPackages_resize_default_witness :
  exists p,
    @Packages.loadPackages NumericSemver.lib Sample.resize
    = (set_packages [Sample.small_1_0_0; Sample.default_small]
         (set_pkg (JObj p) Sample.resize), Next) /\
    get p "default" = JBool true.
Proof.
  destruct (@loadPackages_resize_default NumericSemver.lib numeric_order
              Sample.resize [Sample.small_1_0_0; Sample.default_small]
              ltac:(discriminate) eq_refl eq_refl eq_refl eq_refl eq_refl
              eq_refl) as [_ Hsome].
  - intros q Hq _. apply list_elem_of_In in Hq. simpl in Hq.
    destruct Hq as [<- | [<- | []]]; eexists; reflexivity.
  - destruct Hsome as (p & Hp & _ & Hd & _).
    + exists Sample.default_small. split; [| reflexivity].
      apply list_elem_of_further, list_elem_of_here.
    + exists p. by split.
Defined.

(** ** The filter of a package listing *)

Lemma fold_narrowing_other (req : request) (l : list (string * string))
    (acc : obj) (f : string) :
  f ∉ l.*2 ->
  fold_left
    (fun (opts : obj) '(k, field) =>
       if truthy (param req k) then <[field := param req k]> opts else opts)
    l acc !! f = acc !! f.
Proof.
  revert acc. induction l as [| [k0 f0] t IH]; intros acc Hf; simpl.
  - reflexivity.
  - simpl in Hf. apply not_elem_of_cons in Hf as [Hne Hf].
    rewrite IH by exact Hf.
    destruct (truthy (param req k0)); [by rewrite lookup_insert_ne | done].
Qed.

Lemma fold_narrowing_field (req : request) (l : list (string * string))
    (acc : obj) (k f : string) :
  NoDup l.*2 -> (k, f) ∈ l ->
  fold_left
    (fun (opts : obj) '(k, field) =>
       if truthy (param req k) then <[field := param req k]> opts else opts)
    l acc !! f
  = if truthy (param req k) then Some (param req k) else acc !! f.
Proof.
  revert acc. induction l as [| [k0 f0] t IH]; intros acc Hnd Hin; simpl.
  - by apply not_elem_of_nil in Hin.
  - simpl in Hnd. apply NoDup_cons in Hnd as [Hf0 Hnd].
    apply elem_of_cons in Hin as [[= -> ->] | Hin].
    + rewrite fold_narrowing_other by exact Hf0.
      destruct (truthy (param req k0)); [by rewrite lookup_insert_eq | done].
    + rewrite (IH _ Hnd Hin).
      assert (Hne : f0 <> f).
      { intros ->. apply Hf0. apply list_elem_of_fmap. by exists (k, f). }
      destruct (truthy (param req k)); [reflexivity |].
      destruct (truthy (param req k0)); [by rewrite lookup_insert_ne | done].
Qed.

(** X10: the filter [list] sends to the package catalog always restricts to
    the tenant's active packages, holds each recognized parameter that has a
    truthy value under its catalog name, and holds nothing else: no other
    parameter of the request reaches the catalog or lifts the restriction. *)
Theorem list_backend_filter (req : request) :
  Packages.backend_opts req !! "owner_uuids"
  = Some (JStr (uuid (account req))) /\
  Packages.backend_opts req !! "active" = Some (JBool true) /\
  (forall k field, (k, field) ∈ Packages.narrowing ->
     Packages.backend_opts req !! field
     = if truthy (param req k) then Some (param req k) else None) /\
  (forall f, f ∉ "owner_uuids" :: "active" :: Packages.narrowing.*2 ->
     Packages.backend_opts req !! f = None).
Proof.
  unfold Packages.backend_opts, Packages.list_opts.
  split; [by rewrite lookup_insert_eq | split; [| split]].
  - rewrite lookup_insert_ne by discriminate. by rewrite lookup_insert_eq.
  - intros k field Hin.
    assert (Hne : field <> "owner_uuids" /\ field <> "active").
    { pose proof Hin as Hin'. unfold Packages.narrowing in Hin'.
      rewrite !elem_of_cons in Hin'.
      repeat (destruct Hin' as [[= -> ->] | Hin']; [split; discriminate |]).
      by apply not_elem_of_nil in Hin'. }
    destruct Hne as [Ho Ha].
    rewrite !lookup_insert_ne by congruence.
    rewrite (fold_narrowing_field req Packages.narrowing ∅ k field);
      [by rewrite lookup_empty | | exact Hin].
    unfold Packages.narrowing. cbn [fmap list_fmap snd].
    rewrite !NoDup_cons, !not_elem_of_cons.
    repeat split; try discriminate; try apply not_elem_of_nil.
    apply NoDup_nil_2.
  - intros f Hf. apply not_elem_of_cons in Hf as [Ho Hf].
    apply not_elem_of_cons in Hf as [Ha Hf].
    rewrite !lookup_insert_ne by congruence.
    by rewrite fold_narrowing_other, lookup_empty.
Qed.

(** ** What a package listing writes *)

(** X11: whatever the cache is, [list] writes to it at most once, only after
    the catalog answered a request that may use the cache, and what it
    writes is the catalog's raw answer under the tenant's key with the
    configured lifetime. On a cache hit the catalog is not queried and
    nothing is written; when the catalog fails nothing is written and
    nothing is sent. *)
Theorem list_writes_raw_answer `{Cache} (req : request) (c c' : cache_state)
    (r : option error * option (list obj)) :
  cache_get req (Packages.getCacheKey req) (Packages.canUseCache req) c
  = (r, c') ->
  (forall cached, r = (None, Some cached) ->
     Packages.papi_queries (Packages.list req c) = [] /\
     Packages.cache_after (Packages.list req c) = c' /\
     Packages.body (Packages.list req c)
     = Some (map (Packages.translate req) cached)) /\
  ((forall cached, r <> (None, Some cached)) ->
   (forall pkgs,
      papi_list (sdc req) (Packages.backend_opts req) = Replied pkgs ->
      Packages.cache_after (Packages.list req c)
      = (if Packages.canUseCache req
         then cache_set req ("packages_" +:+ uuid (account req))
                (max_packages_lifetime req) pkgs c'
         else c') /\
      Packages.body (Packages.list req c)
      = Some (map (Packages.translate req) pkgs)) /\
   (forall err,
      papi_list (sdc req) (Packages.backend_opts req) = Failed err ->
      Packages.cache_after (Packages.list req c) = c' /\
      Packages.body (Packages.list req c) = None /\
      Packages.handed (Packages.list req c) = NextErr err)).
Proof.
  intros Hget. unfold Packages.list. rewrite Hget. split.
  - by intros cached ->.
  - intros Hmiss.
    assert (E : Packages.on_cache_reply req r c'
                = match papi_list (sdc req) (Packages.backend_opts req) with
                  | Failed err2 =>
                      Packages.sendResult req [Packages.backend_opts req]
                        (Some err2) [] (Packages.canUseCache req) c'
                  | Replied pkgs =>
                      Packages.sendResult req [Packages.backend_opts req]
                        None pkgs (Packages.canUseCache req) c'
                  end).
    { unfold Packages.on_cache_reply.
      destruct r as [[e |] [cached |]]; try reflexivity.
      by destruct (Hmiss cached). }
    rewrite E. split.
    + intros pkgs ->. unfold Packages.sendResult. simpl.
      by destruct (Packages.canUseCache req).
    + by intros err ->.
Qed.

Lemma list_writes_raw_answer_witness :
  SpecCache.entries
    (Packages.cache_after
       (@Packages.list SpecCache.cache (Sample.list_packages "~6.5")
          SpecCache.empty))
  !! "packages_930896af-bf8c-48d4-885c-6573a94b1853"
  = Some (60%Z, [Sample.small_1_0_0; Sample.small_1_1_0]).
Proof.
  destruct (@list_writes_raw_answer SpecCache.cache
              (Sample.list_packages "~6.5") SpecCache.empty _ _ eq_refl)
    as [_ Hmiss].
  destruct Hmiss as [Hok _]; [discriminate |].
  destruct (Hok _ eq_refl) as [Hcache _].
  by rewrite Hcache.
Defined.

(** ** Fetching one package *)

(** X12: the preload skips every path that ends in [/packages], so on such
    a path [get] answers not found, whatever the catalog holds: a package
    named [packages] cannot be fetched by its name. *)
Theorem get_package_after_skipped_preload `{Semver} (req : request) :
  url req <> "/--ping" ->
  ends_with "/packages" (pathname (url req)) = true ->
  Packages.get (Packages.loadPackages req).1
  = (None, NextErr (ResourceNotFoundError
                      (to_string (param req "package") +:+ " not found"))).
Proof.
  intros Hping Hpath. unfold Packages.loadPackages.
  apply String.eqb_neq in Hping. rewrite Hping. cbv zeta.
  change (url (set_pkg (JBool false) req)) with (url req).
  by rewrite Hpath.
Qed.

Lemma get_package_after_skipped_preload_witness :
  Packages.get
    (@Packages.loadPackages NumericSemver.lib Sample.get_named_packages).1
  = (None, NextErr (ResourceNotFoundError "packages not found")).
Proof.
  exact (@get_package_after_skipped_preload NumericSemver.lib
           Sample.get_named_packages ltac:(discriminate) eq_refl).
Defined.

(** ** Fetching one image by name *)

(** X13: under a version that does not name 6.5, an image asked for by
    something that is no [uuid] and no [urn] of a candidate is not found,
    even when it is the name of a candidate: the preload loads the
    candidates, selects none, and [get] answers not found. *)
Theorem get_image_by_name_modern `{Semver} (req : request)
    (ds imgs : list obj) :
  url req <> "/--ping" ->
  truthy (js_or (param req "image") (param req "dataset")) = true ->
  test UUID_RE (js_or (param req "image") (param req "dataset")) = false ->
  contains "/machines/" (url req) = false ->
  contains "/datasets" (url req) || contains "/machines" (url req) ||
  contains "/images" (url req) = true ->
  contains "6.5" (getVersion req) = false ->
  Datasets.loadImages req = Replied ds ->
  Datasets.loadDisabledImages req = Replied imgs ->
  (forall c, c ∈ ds ++ imgs ->
     ~ names_by ["uuid"; "urn"]
         (js_or (param req "image") (param req "dataset")) c) ->
  Datasets.load req
  = (set_datasets (ds ++ imgs) (set_dataset (JBool false) req), Next) /\
  Datasets.get (Datasets.load req).1
  = (None, NextErr (ResourceNotFoundError
                      (to_string (param req "dataset") +:+ " not found"))).
Proof.
  intros Hping Hid Hre Hsingle Hurl Hversion Hactive Hdisabled Hnone.
  assert (E : Datasets.load req
              = (set_datasets (ds ++ imgs) (set_dataset (JBool false) req),
                 Next)).
  { unfold Datasets.load.
    apply String.eqb_neq in Hping. rewrite Hping. cbv zeta.
    change (param (set_dataset (JBool false) req)) with (param req).
    change (url (set_dataset (JBool false) req)) with (url req).
    rewrite Hid, Hre, Hsingle, Hurl. cbn [andb negb].
    change (Datasets.loadImages (set_dataset (JBool false) req))
      with (Datasets.loadImages req).
    rewrite Hactive.
    change (Datasets.loadDisabledImages
              (set_datasets ds (set_dataset (JBool false) req)))
      with (Datasets.loadDisabledImages req).
    rewrite Hdisabled.
    change (getVersion (set_datasets (ds ++ imgs)
                          (set_datasets ds (set_dataset (JBool false) req))))
      with (getVersion req).
    rewrite Hversion. unfold Datasets.curImg70.
    change (param (set_datasets (ds ++ imgs)
                     (set_datasets ds (set_dataset (JBool false) req))))
      with (param req).
    rewrite Hid. cbn [datasets set_datasets].
    rewrite find_none; [reflexivity |].
    intros c Hc Hm. apply (Hnone c Hc). by apply matches70_names. }
  split; [exact E |]. by rewrite E.
Qed.

Lemma get_image_by_name_modern_witness :
  @Datasets.get NumericSemver.lib
    (@Datasets.load NumericSemver.lib (Sample.get_image_named "~7.0")).1
  = (None, NextErr (ResourceNotFoundError "base not found")).
Proof.
  refine (proj2 (@get_image_by_name_modern NumericSemver.lib
                   (Sample.get_image_named "~7.0") Sample.images []
                   ltac:(discriminate) eq_refl eq_refl eq_refl eq_refl
                   eq_refl eq_refl eq_refl _)).
  intros c Hc (k & Hk & Hm).
  apply list_elem_of_In in Hc. apply list_elem_of_In in Hk.
  simpl in Hc, Hk.
  destruct Hk as [<- | [<- | []]];
    destruct Hc as [<- | [<- | [<- | [<- | []]]]]; discriminate Hm.
Defined.

(** The same request from a client of version 6.5 finds the newest image
    named [base]. *)
Example get_image_by_name_legacy :
  dataset (@Datasets.load NumericSemver.lib (Sample.get_image_named "~6.5")).1
  = JObj Sample.base_2.
Proof. reflexivity. Qed.

(** ** The bleeding-edge guard *)

Lemma truthy_js_and (a b : jsval) :
  truthy (js_and a b) = truthy a && truthy b.
Proof.
  unfold js_and. by destruct (truthy a) eqn:E.
Qed.

Lemma truthy_js_or (a b : jsval) :
  truthy (js_or a b) = truthy a || truthy b.
Proof.
  unfold js_or. by destruct (truthy a) eqn:E.
Qed.

(** X14: the guard of the image-management endpoints and the translator
    agree on who is bleeding edge: with the configuration copied onto the
    request, the guard for [img_mgmt] lets a request through exactly when
    the translator's bleeding-edge test holds for it, and otherwise answers
    that the URL does not exist. *)
Theorem guard_agrees_with_translate (features whitelist : jsval)
    (req : request) :
  (Datasets.bleedingEdgeGuard features whitelist "img_mgmt" req = Next <->
   truthy (Datasets.bleeding_edge
             (Datasets.reqBleedingEdge features whitelist req)) = true) /\
  (Datasets.bleedingEdgeGuard features whitelist "img_mgmt" req <> Next ->
   Datasets.bleedingEdgeGuard features whitelist "img_mgmt" req
   = NextErr (ResourceNotFoundError (url req +:+ " does not exist"))).
Proof.
  unfold Datasets.bleedingEdgeGuard, Datasets.bleeding_edge.
  cbn [bleedingEdgeFeatures bleedingEdgeLoginWhitelist account
       Datasets.reqBleedingEdge].
  rewrite !truthy_js_and, !truthy_js_or.
  destruct (truthy features), (truthy (prop features "img_mgmt")),
    (truthy whitelist), (truthy (prop whitelist (login (account req)))),
    (truthy (prop whitelist "*")); cbn [andb orb];
    (split; [split; (reflexivity || discriminate) | congruence]).
Qed.

(** ** The filter of an image listing *)

Lemma fold_search_other (req : request) (l : list string) (acc : obj)
    (f : string) :
  f ∉ l ->
  fold_left
    (fun (opts : obj) k =>
       if truthy (param req k) then <[k := param req k]> opts else opts)
    l acc !! f = acc !! f.
Proof.
  revert acc. induction l as [| k0 t IH]; intros acc Hf; simpl.
  - reflexivity.
  - apply not_elem_of_cons in Hf as [Hne Hf]. rewrite IH by exact Hf.
    destruct (truthy (param req k0)); [by rewrite lookup_insert_ne | done].
Qed.

Lemma fold_search_field (req : request) (l : list string) (acc : obj)
    (k : string) :
  NoDup l -> k ∈ l ->
  fold_left
    (fun (opts : obj) k =>
       if truthy (param req k) then <[k := param req k]> opts else opts)
    l acc !! k
  = if truthy (param req k) then Some (param req k) else acc !! k.
Proof.
  revert acc. induction l as [| k0 t IH]; intros acc Hnd Hin; simpl.
  - by apply not_elem_of_nil in Hin.
  - apply NoDup_cons in Hnd as [Hk0 Hnd].
    apply elem_of_cons in Hin as [-> | Hin].
    + rewrite fold_search_other by exact Hk0.
      destruct (truthy (param req k0)); [by rewrite lookup_insert_eq | done].
    + rewrite (IH _ Hnd Hin).
      assert (Hne : k0 <> k) by (intros ->; contradiction).
      destruct (truthy (param req k)); [reflexivity |].
      destruct (truthy (param req k0)); [by rewrite lookup_insert_ne | done].
Qed.

(** X15: the filter [loadImages] sends to the image catalog always names
    the tenant's account. The search parameters name, os, version, public,
    state, owner and type reach the catalog only on the list endpoints (a
    URL with [/images] or [/datasets] not followed by a slash, and without
    [/machines]), each when it has a truthy value; on every other URL the
    filter is the account alone, whatever the parameters. *)
Theorem loadImages_filter (req : request) :
  Datasets.loadImages_opts req !! "account"
  = Some (JStr (uuid (account req))) /\
  (negb (contains "/machines" (url req)) &&
   ((contains "/images" (url req) || contains "/datasets" (url req)) &&
    negb (contains "/images/" (url req) || contains "/datasets/" (url req)))
   = false ->
   Datasets.loadImages_opts req = {[ "account" := JStr (uuid (account req)) ]}) /\
  (negb (contains "/machines" (url req)) &&
   ((contains "/images" (url req) || contains "/datasets" (url req)) &&
    negb (contains "/images/" (url req) || contains "/datasets/" (url req)))
   = true ->
   (forall k, k ∈ Datasets.search_filters ->
      Datasets.loadImages_opts req !! k
      = if truthy (param req k) then Some (param req k) else None) /\
   Datasets.loadImages_opts req !! "type"
   = if truthy (param req "type")
     then Some (Datasets.image_type (param req "type")) else None).
Proof.
  assert (Hnd : NoDup Datasets.search_filters).
  { unfold Datasets.search_filters.
    rewrite !NoDup_cons, !not_elem_of_cons.
    repeat split; try discriminate; try apply not_elem_of_nil.
    apply NoDup_nil_2. }
  assert (Hacc : "account" ∉ Datasets.search_filters).
  { unfold Datasets.search_filters. rewrite !not_elem_of_cons.
    repeat split; try discriminate. apply not_elem_of_nil. }
  assert (Htype : "type" ∉ Datasets.search_filters).
  { unfold Datasets.search_filters. rewrite !not_elem_of_cons.
    repeat split; try discriminate. apply not_elem_of_nil. }
  unfold Datasets.loadImages_opts.
  destruct (negb (contains "/machines" (url req)) &&
            ((contains "/images" (url req) || contains "/datasets" (url req)) &&
             negb (contains "/images/" (url req) ||
                   contains "/datasets/" (url req)))).
  - split; [| split; [discriminate |]].
    + destruct (truthy (param req "type"));
        rewrite ?lookup_insert_ne by discriminate;
        by rewrite fold_search_other, lookup_singleton_eq.
    + intros _. split.
      * intros k Hk.
        assert (Hne : k <> "type") by (intros ->; contradiction).
        assert (Hne' : k <> "account") by (intros ->; contradiction).
        destruct (truthy (param req "type"));
          rewrite ?lookup_insert_ne by congruence;
          rewrite (fold_search_field req _ _ k Hnd Hk);
          by rewrite lookup_singleton_ne.
      * destruct (truthy (param req "type")).
        -- by rewrite lookup_insert_eq.
        -- by rewrite fold_search_other, lookup_singleton_ne.
  - split; [by rewrite lookup_singleton_eq | split; [done | discriminate]].
Qed.

(** ** A failed preload selects nothing *)

(** X16: unless the request is the ping, a preload that does not hand over
    with a plain [next()] (a catalog error, a not-found image, an exception
    of the version comparison) leaves the selection at [false]. *)
Theorem failed_preload_selects_nothing `{Semver} (req : request) :
  url req <> "/--ping" ->
  ((Packages.loadPackages req).2 <> Next ->
   pkg (Packages.loadPackages req).1 = JBool false) /\
  ((Datasets.load req).2 <> Next ->
   dataset (Datasets.load req).1 = JBool false).
Proof.
  intros Hping. apply String.eqb_neq in Hping. split.
  - unfold Packages.loadPackages. rewrite Hping. cbv zeta.
    unfold Packages.select_newest.
    repeat (case_step; cbn [fst snd pkg set_pkg set_packages]);
      congruence.
  - unfold Datasets.load. rewrite Hping. cbv zeta.
    unfold Datasets.getImage.
    repeat (case_step;
            cbn [fst snd dataset set_dataset set_datasets andb]);
      congruence.
Qed.

Lemma failed_preload_selects_nothing_witness :
  pkg (@Packages.loadPackages NumericSemver.lib
         (Sample.request_of "/t1/packages/small" "GET" "~7.0"
            (<["package" := JStr "small"]> ∅) Sample.down)).1 = JBool false /\
  dataset (@Datasets.load NumericSemver.lib (Sample.get_image "destroyed")).1
  = JBool false.
Proof.
  split.
  - refine (proj1 (@failed_preload_selects_nothing NumericSemver.lib _ _) _);
      discriminate.
  - refine (proj2 (@failed_preload_selects_nothing NumericSemver.lib _ _) _);
      discriminate.
Defined.
